(** * Admin media API of Synapse: governance of quarantine, protection and purge

    Shallow embedding of [synapse/rest/admin/media.py].  The servlets are
    translated handler by handler into a state-and-error monad over the
    homeserver's media store.  The servlets follow the source.  The datastore
    and the media repository they forward to live in other modules and are
    modelled from the specification. *)

From stdpp Require Import gmap strings list fin_maps sorting.
From Stdlib Require Import ZArith Ascii.

Open Scope string_scope.
Open Scope list_scope.
Open Scope Z_scope.

Set Warnings "-clear-no-such-hyp".

(** ** Errors ([synapse.api.errors]) *)

Inductive Codes := INVALID_PARAM | MISSING_PARAM | FORBIDDEN | NOT_FOUND | UNKNOWN.

(** The exceptions the servlets raise.  [SynapseError] keeps the [errcode]
    keyword as the call site writes it: [None] when the call gives none. *)
Inductive Error :=
  | SynapseError (code : Z) (msg : string) (errcode : option Codes)
  | AuthError (code : Z) (msg : string)
  | NotFoundError (msg : string)
  | RoomNotFound
  | MediaNotFound.

Inductive Result (A : Type) :=
  | Ok (a : A)
  | Raise (e : Error).
Arguments Ok {A} a.
Arguments Raise {A} e.

(** The error kinds of the specification (section 7), read off the
    exception a handler raised. *)
Definition is_InvalidParameter (e : Error) : Prop :=
  match e with
  | SynapseError 400 _ (Some INVALID_PARAM) => True
  | _ => False
  end.

Definition is_Forbidden (e : Error) : Prop :=
  match e with
  | AuthError 403 _ => True
  | _ => False
  end.

Definition is_NotFound (e : Error) : Prop :=
  match e with
  | NotFoundError _ | MediaNotFound => True
  | _ => False
  end.

(** ** JSON values of the response bodies *)

#[local] Unset Elimination Schemes.
Inductive Json :=
  | JNull
  | JBool (b : bool)
  | JInt (z : Z)
  | JStr (s : string)
  | JList (l : list Json)
  | JDict (d : list (string * Json)).
#[local] Set Elimination Schemes.

Abbreviation JsonDict := (list (string * Json)).

Fixpoint jget (k : string) (d : JsonDict) : option Json :=
  match d with
  | [] => None
  | (k', v) :: d' => if String.eqb k k' then Some v else jget k d'
  end.

(** [d[k] = v] on a dict that is built once, key by key. *)
Fixpoint jset (k : string) (v : Json) (d : JsonDict) : JsonDict :=
  match d with
  | [] => [(k, v)]
  | (k', v') :: d' =>
      if String.eqb k k' then (k, v) :: d' else (k', v') :: jset k v d'
  end.

(** ** Media records (specification section 3) *)

Record MediaRecord := {
  media_id : string;
  server_name : string;
  user_id : option string;
  upload_name : option string;
  media_type : string;
  media_length : Z;
  created_ts : Z;
  last_access_ts : Z;
  quarantined_by : option string;
  safe_from_quarantine : bool
}.

Abbreviation MediaKey := (string * string)%type.

Definition with_quarantined_by (q : option string) (r : MediaRecord) : MediaRecord :=
  {| media_id := media_id r; server_name := server_name r;
     user_id := user_id r; upload_name := upload_name r;
     media_type := media_type r; media_length := media_length r;
     created_ts := created_ts r; last_access_ts := last_access_ts r;
     quarantined_by := q; safe_from_quarantine := safe_from_quarantine r |}.

Definition with_safe_from_quarantine (b : bool) (r : MediaRecord) : MediaRecord :=
  {| media_id := media_id r; server_name := server_name r;
     user_id := user_id r; upload_name := upload_name r;
     media_type := media_type r; media_length := media_length r;
     created_ts := created_ts r; last_access_ts := last_access_ts r;
     quarantined_by := quarantined_by r; safe_from_quarantine := b |}.

#[global] Instance MediaRecord_eq_dec : EqDecision MediaRecord.
Proof. solve_decision. Defined.

Definition row_json (r : MediaRecord) : Json :=
  let ostr o := match o with Some s => JStr s | None => JNull end in
  JDict [("created_ts", JInt (created_ts r));
         ("last_access_ts", JInt (last_access_ts r));
         ("media_id", JStr (media_id r));
         ("media_length", JInt (media_length r));
         ("media_type", JStr (media_type r));
         ("quarantined_by", ostr (quarantined_by r));
         ("safe_from_quarantine", JBool (safe_from_quarantine r));
         ("upload_name", ostr (upload_name r))].

(** ** The store and its call log *)

(** Every call a servlet makes on the datastore or the media repository, with
    its arguments, in the order made. *)
Inductive StoreCall :=
  | quarantine_media_ids_in_room_call (room_id by_ : string)
  | quarantine_media_ids_by_user_call (user by_ : string)
  | quarantine_media_by_id_call (server media : string) (by_ : option string)
  | mark_local_media_as_safe_call (media : string) (safe : bool)
  | get_media_mxcs_in_room_call (room_id : string)
  | delete_old_remote_media_call (before_ts : Z)
  | get_local_media_call (media : string)
  | delete_local_media_ids_call (ids : list string)
  | delete_old_local_media_call (before_ts size_gt : Z) (keep_profiles : bool)
  | get_user_by_id_call (user : string)
  | get_local_media_by_user_paginate_call
      (start limit : Z) (user order_by direction : string).

Record World := {
  media : gmap MediaKey MediaRecord;
  users : gset string;
  rooms : gmap string (gset string * gset MediaKey);
  profiles : gset string;
  calls : list StoreCall
}.

Definition with_media (m : gmap MediaKey MediaRecord) (w : World) : World :=
  {| media := m; users := users w; rooms := rooms w;
     profiles := profiles w; calls := calls w |}.

Definition with_call (c : StoreCall) (w : World) : World :=
  {| media := media w; users := users w; rooms := rooms w;
     profiles := profiles w; calls := calls w ++ [c] |}.

(** ** The monad of a handler: state passing, exceptions abort *)

Definition M (A : Type) : Type := World → Result A * World.

Definition return_ {A} (a : A) : M A := λ w, (Ok a, w).
Definition raise {A} (e : Error) : M A := λ w, (Raise e, w).
Definition bind {A B} (m : M A) (k : A → M B) : M B :=
  λ w, match m w with
       | (Ok a, w') => k a w'
       | (Raise e, w') => (Raise e, w')
       end.
Definition lift {A} (r : Result A) : M A := λ w, (r, w).
Definition get_world : M World := λ w, (Ok w, w).
Definition put_media (m : gmap MediaKey MediaRecord) : M unit :=
  λ w, (Ok tt, with_media m w).
Definition called (c : StoreCall) : M unit := λ w, (Ok tt, with_call c w).

Notation "'let*' x ':=' m 'in' k" := (bind m (λ x, k))
  (at level 10, x pattern, m at level 100, k at level 200).
Notation "m1 ;; m2" := (bind m1 (λ _, m2))
  (at level 100, m2 at level 200).

(** ** Requests and the homeserver's collaborators *)

(** [request.args] maps a query parameter to its first value (what the parse
    helpers of [synapse.http.servlet] read). *)
Record SynapseRequest := {
  args : gmap string string;
  access_token : option string
}.

Record Requester := { user : string }.

(** What a servlet takes from [hs]: its name, the authentication component and
    the byte-storage adapter.  The last two are external collaborators
    (specification section 6) and stay parameters of the development. *)
Record HomeServer := {
  hostname : string;
  get_user_by_req : SynapseRequest → Result Requester;
  is_server_admin : string → bool;
  deleteLocal : string → bool;
  deleteRemoteCache : string → string → bool
}.

Record UserID := { localpart : string; domain : string }.

Fixpoint split_colon (s : string) : option (string * string) :=
  match s with
  | EmptyString => None
  | String c s' =>
      if Ascii.eqb c ":"%char then Some (EmptyString, s')
      else match split_colon s' with
           | Some (l, d) => Some (String c l, d)
           | None => None
           end
  end.

(** Modelled from the spec: [UserID.from_string] is defined in
    [synapse.types]; a user identifier is the sigil [@], then
    [localpart:domain] split at the first colon. *)
Definition UserID_from_string (s : string) : Result UserID :=
  match s with
  | String c rest =>
      if Ascii.eqb c "@"%char then
        match split_colon rest with
        | Some (l, d) => Ok {| localpart := l; domain := d |}
        | None =>
            Raise (SynapseError 400 "Expected UserID of the form '@localname:domain'"
                     (Some INVALID_PARAM))
        end
      else Raise (SynapseError 400 "Expected UserID string to start with '@'"
                    (Some INVALID_PARAM))
  | EmptyString =>
      Raise (SynapseError 400 "Expected UserID string to start with '@'"
               (Some INVALID_PARAM))
  end.

(** Modelled from the spec: [MediaSortOrder] is defined in
    [synapse.storage.databases.main.media_repository]; its values are the
    sort keys of specification section 4.1. *)
Inductive MediaSortOrder :=
  | MEDIA_ID | UPLOAD_NAME | CREATED_TS | LAST_ACCESS_TS
  | MEDIA_LENGTH | MEDIA_TYPE | QUARANTINED_BY | SAFE_FROM_QUARANTINE.

Definition value (o : MediaSortOrder) : string :=
  match o with
  | MEDIA_ID => "media_id"
  | UPLOAD_NAME => "upload_name"
  | CREATED_TS => "created_ts"
  | LAST_ACCESS_TS => "last_access_ts"
  | MEDIA_LENGTH => "media_length"
  | MEDIA_TYPE => "media_type"
  | QUARANTINED_BY => "quarantined_by"
  | SAFE_FROM_QUARANTINE => "safe_from_quarantine"
  end.

Definition all_sort_orders : list MediaSortOrder :=
  [MEDIA_ID; UPLOAD_NAME; CREATED_TS; LAST_ACCESS_TS;
   MEDIA_LENGTH; MEDIA_TYPE; QUARANTINED_BY; SAFE_FROM_QUARANTINE].

Definition MediaSortOrder_of (s : string) : option MediaSortOrder :=
  find (λ o, String.eqb (value o) s) all_sort_orders.

Definition compare_option_string (a b : option string) : comparison :=
  match a, b with
  | None, None => Eq
  | None, Some _ => Lt
  | Some _, None => Gt
  | Some x, Some y => String.compare x y
  end.

Definition compare_bool (a b : bool) : comparison :=
  match a, b with
  | false, true => Lt
  | true, false => Gt
  | _, _ => Eq
  end.

Definition compare_column (o : option MediaSortOrder) (a b : MediaRecord) : comparison :=
  match o with
  | Some MEDIA_ID => String.compare (media_id a) (media_id b)
  | Some UPLOAD_NAME => compare_option_string (upload_name a) (upload_name b)
  | Some CREATED_TS => Z.compare (created_ts a) (created_ts b)
  | Some LAST_ACCESS_TS => Z.compare (last_access_ts a) (last_access_ts b)
  | Some MEDIA_LENGTH => Z.compare (media_length a) (media_length b)
  | Some MEDIA_TYPE => String.compare (media_type a) (media_type b)
  | Some QUARANTINED_BY => compare_option_string (quarantined_by a) (quarantined_by b)
  | Some SAFE_FROM_QUARANTINE =>
      compare_bool (safe_from_quarantine a) (safe_from_quarantine b)
  | None => Eq
  end.

(** Row order of a listing: the column in the asked direction (["b"] is
    backward, anything else forward), ties by [media_id] ascending. *)
Definition row_leb (order_by direction : string) (a b : MediaRecord) : bool :=
  let c := compare_column (MediaSortOrder_of order_by) a b in
  let c := if String.eqb direction "b" then CompOpp c else c in
  match c with
  | Lt => true
  | Gt => false
  | Eq => String.leb (media_id a) (media_id b)
  end.

(** ** A concrete homeserver

    One server, [example.org], with an administrator and two users, a room
    and a handful of media; the theorems below are run on it. *)

Definition digit_of (c : ascii) : option Z :=
  let n := Z.of_N (N_of_ascii c) in
  if (48 <=? n) && (n <=? 57) then Some (n - 48) else None.

Fixpoint digits (s : string) (acc : Z) : option Z :=
  match s with
  | EmptyString => Some acc
  | String c s' =>
      match digit_of c with
      | Some d => digits s' (10 * acc + d)
      | None => None
      end
  end.

(** Decimal integers, with an optional minus sign. *)
Definition dec_int (s : string) : option Z :=
  match s with
  | EmptyString => None
  | String c s' =>
      if Ascii.eqb c "-"%char then
        match s' with
        | EmptyString => None
        | _ => Z.opp <$> digits s' 0
        end
      else digits s 0
  end.

Definition ex_hs : HomeServer :=
  {| hostname := "example.org";
     get_user_by_req := λ request,
       match access_token request with
       | Some t =>
           if String.eqb t "admin_token" then Ok {| user := "@admin:example.org" |}
           else if String.eqb t "alice_token" then Ok {| user := "@alice:example.org" |}
           else Raise (SynapseError 401 "Unrecognised access token" None)
       | None => Raise (SynapseError 401 "Missing access token" None)
       end;
     is_server_admin := λ u, String.eqb u "@admin:example.org";
     deleteLocal := λ id, negb (String.eqb id "stuck");
     deleteRemoteCache := λ _ _, true |}.

Definition ex_admin_request (a : gmap string string) : SynapseRequest :=
  {| args := a; access_token := Some "admin_token" |}.

Definition ex_alice_request (a : gmap string string) : SynapseRequest :=
  {| args := a; access_token := Some "alice_token" |}.

Definition ex_record (server id : string) (uploader : option string) (ts : Z)
    (q : option string) (safe : bool) : MediaRecord :=
  {| media_id := id; server_name := server; user_id := uploader;
     upload_name := None; media_type := "image/png"; media_length := 2048;
     created_ts := ts; last_access_ts := ts;
     quarantined_by := q; safe_from_quarantine := safe |}.

Definition ex_A := ex_record "example.org" "A" (Some "@alice:example.org") 1600000000001 None false.
Definition ex_B := ex_record "example.org" "B" (Some "@alice:example.org") 1600000000002 None true.
Definition ex_C := ex_record "remote.org" "C" None 1600000000003 None false.
Definition ex_D :=
  ex_record "example.org" "D" (Some "@alice:example.org") 1600000000004
    (Some "@admin:example.org") false.
Definition ex_stuck :=
  ex_record "example.org" "stuck" (Some "@bob:example.org") 1600000000005 None false.

Definition ex_world : World :=
  {| media := list_to_map
       [(("example.org", "A"), ex_A); (("example.org", "B"), ex_B);
        (("remote.org", "C"), ex_C); (("example.org", "D"), ex_D);
        (("example.org", "stuck"), ex_stuck)];
     users := {["@alice:example.org"; "@bob:example.org"]};
     rooms := {["!room:example.org" := ({["A"; "B"]}, {[("remote.org", "C")]})]};
     profiles := ∅;
     calls := [] |}.

(** The administrator lists, or deletes, the first two of alice's three
    media; these are the answer and the world each handler leaves. *)
Definition ex_list_request : SynapseRequest :=
  ex_admin_request {["from" := "0"; "limit" := "2"]}.

Definition ex_GET_resp : Z * JsonDict :=
  (200, [("media", JList [row_json ex_D; row_json ex_B]);
         ("total", JInt 3);
         ("next_token", JInt 2)]).

Definition ex_GET_world : World :=
  with_call (get_local_media_by_user_paginate_call 0 2 "@alice:example.org"
               "created_ts" "b")
    (with_call (get_user_by_id_call "@alice:example.org") ex_world).

Definition ex_DELETE_resp : Z * JsonDict :=
  (200, [("deleted_media", JList [JStr "D"; JStr "B"]); ("total", JInt 2)]).

Definition ex_DELETE_world : World :=
  with_media (delete ("example.org", "B") (delete ("example.org", "D") (media ex_world)))
    (with_call (delete_local_media_ids_call ["D"; "B"]) ex_GET_world).

(** Requests for the purge handlers: at the threshold, one below it, and one
    whose [size_gt] is no number; and two requests that name a sort. *)
Definition ex_threshold_request : SynapseRequest :=
  ex_admin_request {["before_ts" := "30000000000"]}.

Definition ex_below_threshold_request : SynapseRequest :=
  ex_admin_request {["before_ts" := "29999999999"]}.

Definition ex_malformed_size_request : SynapseRequest :=
  ex_admin_request {["before_ts" := "-1"; "size_gt" := "abc"]}.

Definition ex_sorted_request : SynapseRequest :=
  ex_admin_request {["order_by" := "media_length"; "dir" := "b"]}.

Definition ex_bad_sort_request : SynapseRequest :=
  ex_admin_request {["order_by" := "colour"]}.


Section Servlets.

Context (hs : HomeServer).

(** Python's [int] applied to the bytes of a query value ([None] when it
    raises); a language builtin, kept abstract. *)
Variable int_of_bytes : string → option Z.

(** ** Helpers of [synapse.http.servlet] and [synapse.rest.admin._base] *)

(** Modelled from the spec: [parse_integer], [parse_boolean] and
    [parse_string] are defined in [synapse.http.servlet], which media.py
    only imports; the specification leaves parameter parsing to the transport
    layer.  A present parameter is converted (or checked against the allowed
    values), an absent one yields the default or, when required, a
    missing-parameter error.  [parse_integer_required] is the call with
    [required=True], [parse_integer] the call with a default. *)
Definition parse_integer_required (request : SynapseRequest) (name : string) : Result Z :=
  match args request !! name with
  | Some raw =>
      match int_of_bytes raw with
      | Some v => Ok v
      | None => Raise (SynapseError 400 "Query parameter must be an integer"
                         (Some INVALID_PARAM))
      end
  | None => Raise (SynapseError 400 "Missing integer query parameter"
                     (Some MISSING_PARAM))
  end.

Definition parse_integer (request : SynapseRequest) (name : string) (default : Z) : Result Z :=
  match args request !! name with
  | Some raw =>
      match int_of_bytes raw with
      | Some v => Ok v
      | None => Raise (SynapseError 400 "Query parameter must be an integer"
                         (Some INVALID_PARAM))
      end
  | None => Ok default
  end.

Definition parse_boolean (request : SynapseRequest) (name : string) (default : bool) : Result bool :=
  match args request !! name with
  | Some raw =>
      if String.eqb raw "true" then Ok true
      else if String.eqb raw "false" then Ok false
      else Raise (SynapseError 400
                    "Boolean query parameter must be one of ['true', 'false']" None)
  | None => Ok default
  end.

Definition parse_string (request : SynapseRequest) (name default : string)
    (allowed_values : list string) : Result string :=
  match args request !! name with
  | Some v =>
      if bool_decide (v ∈ allowed_values) then Ok v
      else Raise (SynapseError 400 "Query parameter must be one of the allowed values" None)
  | None => Ok default
  end.

(** Modelled from the spec: [assert_user_is_admin] and
    [assert_requester_is_admin] are defined in [synapse.rest.admin._base],
    which media.py only imports.  They do what [ListMediaInRoom.on_GET]
    writes out inline: a requester who is not a server administrator gets
    [AuthError 403] (Forbidden, specification section 6). *)
Definition assert_user_is_admin (u : string) : M unit :=
  if is_server_admin hs u then return_ tt
  else raise (AuthError 403 "You are not a server admin").

Definition assert_requester_is_admin (request : SynapseRequest) : M unit :=
  let* requester := lift (get_user_by_req hs request) in
  assert_user_is_admin (user requester).

(** Modelled from the spec: [hs.is_mine], the domain of the identifier is
    this server's name. *)
Definition is_mine (u : UserID) : bool := String.eqb (domain u) (hostname hs).

(** ** MediaRecordStore (specification section 4.1) *)

Definition local_key (id : string) : MediaKey := (hostname hs, id).

(** Modelled from the spec: the datastore's quarantine update is defined in
    the storage layer.  [setQuarantine(keys, by)]: [by = null] clears the
    quarantine unconditionally; a non-null [by] skips every record that is
    [safe_from_quarantine]. *)
Definition quarantine_record (by_ : option string) (r : MediaRecord) : MediaRecord :=
  match by_ with
  | None => with_quarantined_by None r
  | Some a =>
      if safe_from_quarantine r then r else with_quarantined_by (Some a) r
  end.

Definition quarantine_keys (keys : gset MediaKey) (by_ : option string)
    (m : gmap MediaKey MediaRecord) : gmap MediaKey MediaRecord :=
  map_imap (λ k r, Some (if decide (k ∈ keys) then quarantine_record by_ r else r)) m.

Definition quarantine_changes (by_ : option string)
    (m : gmap MediaKey MediaRecord) (k : MediaKey) : bool :=
  match m !! k with
  | Some r => bool_decide (quarantine_record by_ r ≠ r)
  | None => false
  end.

(** The keys whose record actually changes: the affected-count counts these. *)
Definition affected (keys : gset MediaKey) (by_ : option string)
    (m : gmap MediaKey MediaRecord) : gset MediaKey :=
  filter (λ k, quarantine_changes by_ m k = true) keys.

(** The store is taken to be available: the [StorageUnavailable] abort that
    section 4.1 allows every store operation is not modelled, so what is
    proved of [setQuarantine], [setSafe] and the deletion procedure speaks of
    the runs on which the store answers. *)
Definition setQuarantine (keys : gset MediaKey) (by_ : option string) : M Z :=
  let* w := get_world in
  put_media (quarantine_keys keys by_ (media w)) ;;
  return_ (Z.of_nat (size (affected keys by_ (media w)))).

(** Modelled from the spec: [setSafe(media_id, safe)], local media only;
    setting [safe = true] also clears [quarantined_by]. *)
Definition safe_record (safe : bool) (r : MediaRecord) : MediaRecord :=
  let r' := with_safe_from_quarantine safe r in
  if safe then with_quarantined_by None r' else r'.

Definition setSafe (id : string) (safe : bool) : M unit :=
  let* w := get_world in
  put_media (alter (safe_record safe) (local_key id) (media w)).

(** Modelled from the spec: the deletion procedure of section 4.4.  For each
    candidate the byte-storage adapter removes the backing file and the record
    goes with it; when the adapter fails the record stays and the item is left
    out of the deleted tally; a key without a record is ignored.  As for
    [setQuarantine], an abort of the store in the middle of the procedure
    (section 7) is not modelled. *)
Fixpoint delete_each (adapter : MediaKey → bool) (cands : list MediaKey)
    (m : gmap MediaKey MediaRecord) : list MediaKey * gmap MediaKey MediaRecord :=
  match cands with
  | [] => ([], m)
  | k :: rest =>
      match m !! k with
      | Some _ =>
          if adapter k then
            let '(d, m') := delete_each adapter rest (delete k m) in (k :: d, m')
          else delete_each adapter rest m
      | None => delete_each adapter rest m
      end
  end.

Definition delete_candidates (adapter : MediaKey → bool) (cands : list MediaKey)
    : M (list string * Z) :=
  let* w := get_world in
  let '(d, m') := delete_each adapter cands (media w) in
  put_media m' ;;
  return_ (d.*2, Z.of_nat (length cands)).

(** Modelled from the spec: [listByUser], the local media uploaded by the
    user, sorted, then the page [offset, offset + limit) and the count of all
    the rows. *)
Definition media_of_user (u : string) (m : gmap MediaKey MediaRecord)
    : gmap MediaKey MediaRecord :=
  filter (λ kr, kr.1.1 = hostname hs ∧ user_id kr.2 = Some u) m.

Definition listByUser (m : gmap MediaKey MediaRecord) (start limit : Z)
    (u order_by direction : string) : list MediaRecord * Z :=
  let rows := merge_sort (λ a b, Is_true (row_leb order_by direction a b))
                ((map_to_list (media_of_user u m)).*2) in
  (take (Z.to_nat limit) (drop (Z.to_nat start) rows), Z.of_nat (length rows)).

(** ** RoomMediaResolver (specification section 4.2) *)

(** Modelled from the spec: the room/event index is an external collaborator;
    [rooms] holds what it resolves a room to.  An unknown room fails. *)
Definition resolve (room_id : string) : M (gset string * gset MediaKey) :=
  let* w := get_world in
  match rooms w !! room_id with
  | Some p => return_ p
  | None => raise RoomNotFound
  end.

Definition room_keys (p : gset string * gset MediaKey) : gset MediaKey :=
  set_map (D := gset MediaKey) local_key p.1 ∪ p.2.

(** ** The datastore and media-repository calls the servlets make

    Each one records itself in the call log and then runs the engine
    operation the specification assigns to it (sections 4.1, 4.3 and 4.4). *)

(** Modelled from the spec: [quarantineRoom] resolves the room and applies
    [setQuarantine] to the union of the local and the remote keys. *)
Definition quarantine_media_ids_in_room (room_id by_ : string) : M Z :=
  called (quarantine_media_ids_in_room_call room_id by_) ;;
  let* p := resolve room_id in
  setQuarantine (room_keys p) (Some by_).

(** Modelled from the spec: [quarantineUser] takes the local media uploaded
    by the user, then [setQuarantine]. *)
Definition quarantine_media_ids_by_user (u by_ : string) : M Z :=
  called (quarantine_media_ids_by_user_call u by_) ;;
  let* w := get_world in
  setQuarantine (dom (media_of_user u (media w))) (Some by_).

(** Modelled from the spec: [quarantineById] is [void | NotFound] and
    [unquarantineById] is [setQuarantine({key}, null)]; the source reaches
    both through this one call, with an actor or with [None]. *)
Definition quarantine_media_by_id (server id : string) (by_ : option string) : M unit :=
  called (quarantine_media_by_id_call server id by_) ;;
  match by_ with
  | None => setQuarantine {[ (server, id) ]} None ;; return_ tt
  | Some _ =>
      let* w := get_world in
      match media w !! (server, id) with
      | Some _ => setQuarantine {[ (server, id) ]} by_ ;; return_ tt
      | None => raise MediaNotFound
      end
  end.

(** Modelled from the spec: [protect] and [unprotect] are [setSafe] on the
    local record. *)
Definition mark_local_media_as_safe (id : string) (safe : bool) : M unit :=
  called (mark_local_media_as_safe_call id safe) ;;
  setSafe id safe.

(** Modelled from the spec: listing a room's media is the resolver's answer,
    local identifiers and remote keys. *)
Definition get_media_mxcs_in_room (room_id : string) : M (list string * list MediaKey) :=
  called (get_media_mxcs_in_room_call room_id) ;;
  let* p := resolve room_id in
  return_ (elements p.1, elements p.2).

(** Modelled from the spec: [get] on the local key; [None] when absent. *)
Definition get_local_media (id : string) : M (option MediaRecord) :=
  called (get_local_media_call id) ;;
  let* w := get_world in
  return_ (media w !! local_key id).

(** Modelled from the spec: the user table is beyond the specification; a
    user is known when it is in [users]. *)
Definition get_user_by_id (u : string) : M (option string) :=
  called (get_user_by_id_call u) ;;
  let* w := get_world in
  return_ (if decide (u ∈ users w) then Some u else None).

(** Modelled from the spec: [listByUser] behind the datastore call. *)
Definition get_local_media_by_user_paginate (start limit : Z)
    (u order_by direction : string) : M (list MediaRecord * Z) :=
  called (get_local_media_by_user_paginate_call start limit u order_by direction) ;;
  let* w := get_world in
  return_ (listByUser (media w) start limit u order_by direction).

(** Modelled from the spec: age-only purge, the cached remote media with
    [last_access_ts < before_ts]. *)
Definition delete_old_remote_media (before_ts : Z) : M JsonDict :=
  called (delete_old_remote_media_call before_ts) ;;
  let* w := get_world in
  let cands :=
    (map_to_list
       (filter (λ kr, kr.1.1 ≠ hostname hs ∧ last_access_ts kr.2 < before_ts)
          (media w))).*1 in
  let* dt := delete_candidates (λ k, deleteRemoteCache hs k.1 k.2) cands in
  return_ [("deleted_media", JList (JStr <$> dt.1)); ("total", JInt dt.2)].

(** Modelled from the spec: the deletion procedure on the local keys of
    the given identifiers; the answer is the deleted identifiers and the
    number of candidates. *)
Definition delete_local_media_ids (ids : list string) : M (list string * Z) :=
  called (delete_local_media_ids_call ids) ;;
  delete_candidates (λ k, deleteLocal hs k.2) (local_key <$> ids).

(** Modelled from the spec: age, size and safety purge of local media; with
    [keep_profiles] the media the profile index references are kept. *)
Definition delete_old_local_media (before_ts size_gt : Z) (keep_profiles : bool)
    : M (list string * Z) :=
  called (delete_old_local_media_call before_ts size_gt keep_profiles) ;;
  let* w := get_world in
  let cands :=
    (map_to_list
       (filter (λ kr, kr.1.1 = hostname hs
                      ∧ created_ts kr.2 < before_ts
                      ∧ media_length kr.2 > size_gt
                      ∧ (keep_profiles = true → kr.1.2 ∉ profiles w))
          (media w))).*1 in
  delete_candidates (λ k, deleteLocal hs k.2) cands.

(** ** The servlets of [synapse/rest/admin/media.py] *)

Definition QuarantineMediaInRoom_on_POST (request : SynapseRequest) (room_id : string)
    : M (Z * JsonDict) :=
  let* requester := lift (get_user_by_req hs request) in
  assert_user_is_admin (user requester) ;;
  let* num_quarantined := quarantine_media_ids_in_room room_id (user requester) in
  return_ (200, [("num_quarantined", JInt num_quarantined)]).

Definition QuarantineMediaByUser_on_POST (request : SynapseRequest) (user_id : string)
    : M (Z * JsonDict) :=
  let* requester := lift (get_user_by_req hs request) in
  assert_user_is_admin (user requester) ;;
  let* num_quarantined := quarantine_media_ids_by_user user_id (user requester) in
  return_ (200, [("num_quarantined", JInt num_quarantined)]).

Definition QuarantineMediaByID_on_POST (request : SynapseRequest)
    (server_name media_id : string) : M (Z * JsonDict) :=
  let* requester := lift (get_user_by_req hs request) in
  assert_user_is_admin (user requester) ;;
  quarantine_media_by_id server_name media_id (Some (user requester)) ;;
  return_ (200, []).

Definition UnquarantineMediaByID_on_POST (request : SynapseRequest)
    (server_name media_id : string) : M (Z * JsonDict) :=
  let* requester := lift (get_user_by_req hs request) in
  assert_user_is_admin (user requester) ;;
  quarantine_media_by_id server_name media_id None ;;
  return_ (200, []).

Definition ProtectMediaByID_on_POST (request : SynapseRequest) (media_id : string)
    : M (Z * JsonDict) :=
  let* requester := lift (get_user_by_req hs request) in
  assert_user_is_admin (user requester) ;;
  mark_local_media_as_safe media_id true ;;
  return_ (200, []).

Definition UnprotectMediaByID_on_POST (request : SynapseRequest) (media_id : string)
    : M (Z * JsonDict) :=
  let* requester := lift (get_user_by_req hs request) in
  assert_user_is_admin (user requester) ;;
  mark_local_media_as_safe media_id false ;;
  return_ (200, []).

Definition ListMediaInRoom_on_GET (request : SynapseRequest) (room_id : string)
    : M (Z * JsonDict) :=
  let* requester := lift (get_user_by_req hs request) in
  let is_admin := is_server_admin hs (user requester) in
  (if negb is_admin then raise (AuthError 403 "You are not a server admin")
   else return_ tt) ;;
  let* mxcs := get_media_mxcs_in_room room_id in
  return_ (200, [("local", JList (JStr <$> mxcs.1));
             ("remote", JList ((λ k, JList [JStr k.1; JStr k.2]) <$> mxcs.2))]).

Definition PurgeMediaCacheRestServlet_on_POST (request : SynapseRequest)
    : M (Z * JsonDict) :=
  assert_requester_is_admin request ;;
  let* before_ts := lift (parse_integer_required request "before_ts") in
  (if before_ts <? 0 then
     raise (SynapseError 400 "Query parameter before_ts must be a positive integer."
              (Some INVALID_PARAM))
   else if before_ts <? 30000000000 then
     raise (SynapseError 400
              "Query parameter before_ts you provided is from the year 1970. Double check that you are providing a timestamp in milliseconds."
              (Some INVALID_PARAM))
   else return_ tt) ;;
  let* r := delete_old_remote_media before_ts in
  return_ (200, r).

Definition DeleteMediaByID_on_DELETE (request : SynapseRequest)
    (server_name media_id : string) : M (Z * JsonDict) :=
  assert_requester_is_admin request ;;
  (if negb (String.eqb (hostname hs) server_name) then
     raise (SynapseError 400 "Can only delete local media" None)
   else return_ tt) ;;
  let* found := get_local_media media_id in
  (if found is None then raise (NotFoundError "Unknown media") else return_ tt) ;;
  let* dt := delete_local_media_ids [media_id] in
  return_ (200, [("deleted_media", JList (JStr <$> dt.1)); ("total", JInt dt.2)]).

Definition DeleteMediaByDateSize_on_POST (request : SynapseRequest)
    (server_name : string) : M (Z * JsonDict) :=
  assert_requester_is_admin request ;;
  let* before_ts := lift (parse_integer_required request "before_ts") in
  let* size_gt := lift (parse_integer request "size_gt" 0) in
  let* keep_profiles := lift (parse_boolean request "keep_profiles" true) in
  (if before_ts <? 0 then
     raise (SynapseError 400 "Query parameter before_ts must be a positive integer."
              (Some INVALID_PARAM))
   else if before_ts <? 30000000000 then
     raise (SynapseError 400
              "Query parameter before_ts you provided is from the year 1970. Double check that you are providing a timestamp in milliseconds."
              (Some INVALID_PARAM))
   else return_ tt) ;;
  (if size_gt <? 0 then
     raise (SynapseError 400
              "Query parameter size_gt must be a string representing a positive integer."
              (Some INVALID_PARAM))
   else return_ tt) ;;
  (if negb (String.eqb (hostname hs) server_name) then
     raise (SynapseError 400 "Can only delete local media" None)
   else return_ tt) ;;
  let* dt := delete_old_local_media before_ts size_gt keep_profiles in
  return_ (200, [("deleted_media", JList (JStr <$> dt.1)); ("total", JInt dt.2)]).

(** [name in request.args] *)
Definition has_arg (request : SynapseRequest) (name : string) : bool :=
  bool_decide (is_Some (args request !! name)).

Definition UserMediaRestServlet_on_GET (request : SynapseRequest) (user_id : string)
    : M (Z * JsonDict) :=
  assert_requester_is_admin request ;;
  let* uid := lift (UserID_from_string user_id) in
  (if negb (is_mine uid) then
     raise (SynapseError 400 "Can only look up local users" None)
   else return_ tt) ;;
  let* user := get_user_by_id user_id in
  (if user is None then raise (NotFoundError "Unknown user") else return_ tt) ;;
  let* start := lift (parse_integer request "from" 0) in
  let* limit := lift (parse_integer request "limit" 100) in
  (if start <? 0 then
     raise (SynapseError 400
              "Query parameter from must be a string representing a positive integer."
              (Some INVALID_PARAM))
   else return_ tt) ;;
  (if limit <? 0 then
     raise (SynapseError 400
              "Query parameter limit must be a string representing a positive integer."
              (Some INVALID_PARAM))
   else return_ tt) ;;
  let* sort :=
    (if negb (has_arg request "order_by") && negb (has_arg request "dir") then
       return_ (value CREATED_TS, "b")
     else
       let* order_by :=
         lift (parse_string request "order_by" (value CREATED_TS)
                 [value MEDIA_ID; value UPLOAD_NAME; value CREATED_TS;
                  value LAST_ACCESS_TS; value MEDIA_LENGTH; value MEDIA_TYPE;
                  value QUARANTINED_BY; value SAFE_FROM_QUARANTINE]) in
       let* direction := lift (parse_string request "dir" "f" ["f"; "b"]) in
       return_ (order_by, direction)) in
  let* mt := get_local_media_by_user_paginate start limit user_id sort.1 sort.2 in
  let ret := [("media", JList (row_json <$> mt.1)); ("total", JInt mt.2)] in
  let ret :=
    if start + limit <? mt.2 then
      jset "next_token" (JInt (start + Z.of_nat (length mt.1))) ret
    else ret in
  return_ (200, ret).

Definition UserMediaRestServlet_on_DELETE (request : SynapseRequest) (user_id : string)
    : M (Z * JsonDict) :=
  assert_requester_is_admin request ;;
  let* uid := lift (UserID_from_string user_id) in
  (if negb (is_mine uid) then
     raise (SynapseError 400 "Can only look up local users" None)
   else return_ tt) ;;
  let* user := get_user_by_id user_id in
  (if user is None then raise (NotFoundError "Unknown user") else return_ tt) ;;
  let* start := lift (parse_integer request "from" 0) in
  let* limit := lift (parse_integer request "limit" 100) in
  (if start <? 0 then
     raise (SynapseError 400
              "Query parameter from must be a string representing a positive integer."
              (Some INVALID_PARAM))
   else return_ tt) ;;
  (if limit <? 0 then
     raise (SynapseError 400
              "Query parameter limit must be a string representing a positive integer."
              (Some INVALID_PARAM))
   else return_ tt) ;;
  let* sort :=
    (if negb (has_arg request "order_by") && negb (has_arg request "dir") then
       return_ (value CREATED_TS, "b")
     else
       let* order_by :=
         lift (parse_string request "order_by" (value CREATED_TS)
                 [value MEDIA_ID; value UPLOAD_NAME; value CREATED_TS;
                  value LAST_ACCESS_TS; value MEDIA_LENGTH; value MEDIA_TYPE;
                  value QUARANTINED_BY; value SAFE_FROM_QUARANTINE]) in
       let* direction := lift (parse_string request "dir" "f" ["f"; "b"]) in
       return_ (order_by, direction)) in
  let* mt := get_local_media_by_user_paginate start limit user_id sort.1 sort.2 in
  let* dt := delete_local_media_ids (media_id <$> mt.1) in
  return_ (200, [("deleted_media", JList (JStr <$> dt.1)); ("total", JInt dt.2)]).

(** ** The operations of the admin surface, as one transition function *)

Inductive Operation :=
  | QuarantineRoom (room_id : string)
  | QuarantineUser (user_id : string)
  | QuarantineById (server_name media_id : string)
  | UnquarantineById (server_name media_id : string)
  | Protect (media_id : string)
  | Unprotect (media_id : string)
  | ListRoom (room_id : string)
  | PurgeCache
  | DeleteById (server_name media_id : string)
  | DeleteByDateSize (server_name : string)
  | ListUserMedia (user_id : string)
  | DeleteUserMedia (user_id : string).

Definition handle (op : Operation) (request : SynapseRequest) : M (Z * JsonDict) :=
  match op with
  | QuarantineRoom room_id => QuarantineMediaInRoom_on_POST request room_id
  | QuarantineUser user_id => QuarantineMediaByUser_on_POST request user_id
  | QuarantineById s m => QuarantineMediaByID_on_POST request s m
  | UnquarantineById s m => UnquarantineMediaByID_on_POST request s m
  | Protect m => ProtectMediaByID_on_POST request m
  | Unprotect m => UnprotectMediaByID_on_POST request m
  | ListRoom room_id => ListMediaInRoom_on_GET request room_id
  | PurgeCache => PurgeMediaCacheRestServlet_on_POST request
  | DeleteById s m => DeleteMediaByID_on_DELETE request s m
  | DeleteByDateSize s => DeleteMediaByDateSize_on_POST request s
  | ListUserMedia u => UserMediaRestServlet_on_GET request u
  | DeleteUserMedia u => UserMediaRestServlet_on_DELETE request u
  end.

(** The invariant of specification section 3: a protected record is not
    quarantined. *)
Definition safe_invariant (m : gmap MediaKey MediaRecord) : Prop :=
  ∀ k r, m !! k = Some r → safe_from_quarantine r = true → quarantined_by r = None.

(** ** The checks the two user-media handlers share

    [on_GET] and [on_DELETE] open with the same statements, written out twice
    in the source.  [user_media_checks] names that common prefix so that it
    is analysed once; [on_GET_checks] and [on_DELETE_checks] below show
    each handler is the prefix followed by its own tail. *)

Definition sort_of (request : SynapseRequest) : Result (string * string) :=
  if negb (has_arg request "order_by") && negb (has_arg request "dir") then
    Ok (value CREATED_TS, "b")
  else
    match parse_string request "order_by" (value CREATED_TS)
            [value MEDIA_ID; value UPLOAD_NAME; value CREATED_TS;
             value LAST_ACCESS_TS; value MEDIA_LENGTH; value MEDIA_TYPE;
             value QUARANTINED_BY; value SAFE_FROM_QUARANTINE] with
    | Ok order_by =>
        match parse_string request "dir" "f" ["f"; "b"] with
        | Ok direction => Ok (order_by, direction)
        | Raise e => Raise e
        end
    | Raise e => Raise e
    end.

Definition user_media_checks (request : SynapseRequest) (user_id : string)
    : M (Z * Z * (string * string)) :=
  assert_requester_is_admin request ;;
  let* uid := lift (UserID_from_string user_id) in
  (if negb (is_mine uid) then
     raise (SynapseError 400 "Can only look up local users" None)
   else return_ tt) ;;
  let* user := get_user_by_id user_id in
  (if user is None then raise (NotFoundError "Unknown user") else return_ tt) ;;
  let* start := lift (parse_integer request "from" 0) in
  let* limit := lift (parse_integer request "limit" 100) in
  (if start <? 0 then
     raise (SynapseError 400
              "Query parameter from must be a string representing a positive integer."
              (Some INVALID_PARAM))
   else return_ tt) ;;
  (if limit <? 0 then
     raise (SynapseError 400
              "Query parameter limit must be a string representing a positive integer."
              (Some INVALID_PARAM))
   else return_ tt) ;;
  let* sort := lift (sort_of request) in
  return_ (start, limit, sort).

(** The body [on_GET] builds from a page and the total. *)
Definition listing_body (start limit : Z) (mt : list MediaRecord * Z) : JsonDict :=
  let ret := [("media", JList (row_json <$> mt.1)); ("total", JInt mt.2)] in
  if start + limit <? mt.2 then
    jset "next_token" (JInt (start + Z.of_nat (length mt.1))) ret
  else ret.

(** The user is a local one: the identifier parses and its domain is ours. *)
Definition local_user (user_id : string) : Prop :=
  ∃ uid, UserID_from_string user_id = Ok uid ∧ is_mine uid = true.

(** The caller of the request is a proven server administrator. *)
Definition authorised (request : SynapseRequest) : Prop :=
  ∃ rq, get_user_by_req hs request = Ok rq ∧ is_server_admin hs (user rq) = true.

(** A handler step keeps a property of the media table. *)
Definition preserves (P : gmap MediaKey MediaRecord → Prop) {A} (m : M A) : Prop :=
  ∀ w, P (media w) → P (media (m w).2).

(** States reached from [w0] by any sequence of requests. *)
Inductive reachable (w0 : World) : World → Prop :=
  | reachable_start : reachable w0 w0
  | reachable_step w op request :
      reachable w0 w → reachable w0 (handle op request w).2.

(** ** What a handler step does to the world, as predicates on steps *)

(** The step leaves the media table alone, whatever it answers. *)
Definition readonly {A} (m : M A) : Prop := ∀ w, media (m w).2 = media w.

(** The step always answers. *)
Definition never_raises {A} (m : M A) : Prop := ∀ w, ∃ a w', m w = (Ok a, w').

(** The store calls the step makes all satisfy [Q]. *)
Definition logs (Q : StoreCall → Prop) {A} (m : M A) : Prop :=
  ∀ w, ∃ cs, calls (m w).2 = calls w ++ cs ∧ Forall Q cs.

(** Whatever the step answers satisfies [P]. *)
Definition answers {A} (P : A → Prop) (m : M A) : Prop :=
  ∀ w a w', m w = (Ok a, w') → P a.

(** The store calls by what they do: look one row up, list, change a
    quarantine or protection flag, delete. *)
Inductive CallKind := LookupCall | ListingCall | FlagCall | DeletionCall.

Definition call_kind (c : StoreCall) : CallKind :=
  match c with
  | quarantine_media_ids_in_room_call _ _
  | quarantine_media_ids_by_user_call _ _
  | quarantine_media_by_id_call _ _ _
  | mark_local_media_as_safe_call _ _ => FlagCall
  | get_media_mxcs_in_room_call _
  | get_local_media_by_user_paginate_call _ _ _ _ _ => ListingCall
  | get_local_media_call _
  | get_user_by_id_call _ => LookupCall
  | delete_old_remote_media_call _
  | delete_local_media_ids_call _
  | delete_old_local_media_call _ _ _ => DeletionCall
  end.

(** The kinds of call each servlet's source contains. *)
Definition may_call (op : Operation) (k : CallKind) : bool :=
  match op, k with
  | QuarantineRoom _, FlagCall | QuarantineUser _, FlagCall
  | QuarantineById _ _, FlagCall | UnquarantineById _ _, FlagCall
  | Protect _, FlagCall | Unprotect _, FlagCall => true
  | ListRoom _, ListingCall => true
  | PurgeCache, DeletionCall | DeleteByDateSize _, DeletionCall => true
  | DeleteById _ _, LookupCall | DeleteById _ _, DeletionCall => true
  | ListUserMedia _, LookupCall | ListUserMedia _, ListingCall => true
  | DeleteUserMedia _, _ => negb (if k is FlagCall then true else false)
  | _, _ => false
  end.

(** The keys of the body each servlet returns with its [200]; the body of
    the cache purge is the media repository's own and is left open. *)
Definition response_keys (op : Operation) : option (list (list string)) :=
  match op with
  | QuarantineRoom _ | QuarantineUser _ => Some [["num_quarantined"]]
  | QuarantineById _ _ | UnquarantineById _ _ | Protect _ | Unprotect _ => Some [[]]
  | ListRoom _ => Some [["local"; "remote"]]
  | PurgeCache => None
  | DeleteById _ _ | DeleteByDateSize _ | DeleteUserMedia _ =>
      Some [["deleted_media"; "total"]]
  | ListUserMedia _ => Some [["media"; "total"]; ["media"; "total"; "next_token"]]
  end.

(** The errors the servlet code raises: those of the authentication, of the
    parsers and of the handlers' own checks.  What the store raises from
    inside a call is not among them. *)
Definition servlet_error (e : Error) : Prop :=
  match e with
  | SynapseError _ _ _ | AuthError _ _ | NotFoundError _ => True
  | RoomNotFound | MediaNotFound => False
  end.

(** The store calls that change a flag or delete. *)
Definition mutating (c : StoreCall) : bool :=
  match call_kind c with
  | FlagCall | DeletionCall => true
  | LookupCall | ListingCall => false
  end.

(** The step leaves the media table alone and makes no mutating call. *)
Definition quiet {A} (m : M A) : Prop :=
  ∀ w, media (m w).2 = media w
       ∧ ∃ cs, calls (m w).2 = calls w ++ cs ∧ Forall (λ c, mutating c = false) cs.

(** The step raises no servlet error. *)
Definition store_error_only {A} (m : M A) : Prop :=
  ∀ w e w', m w = (Raise e, w') → ¬ servlet_error e.

(** When the step raises a servlet error, it has been quiet. *)
Definition guarded {A} (m : M A) : Prop :=
  ∀ w e w', m w = (Raise e, w') → servlet_error e →
    media w' = media w
    ∧ ∃ cs, calls w' = calls w ++ cs ∧ Forall (λ c, mutating c = false) cs.

(** ** Reasoning rules of the monad *)

Lemma preserves_return P {A} (a : A) : preserves P (return_ a).
Proof. by intros w. Qed.

Lemma preserves_raise P {A} (e : Error) : preserves P (raise (A := A) e).
Proof. by intros w. Qed.

Lemma preserves_lift P {A} (r : Result A) : preserves P (lift r).
Proof. by intros w. Qed.

Lemma preserves_get_world P : preserves P get_world.
Proof. by intros w. Qed.

Lemma preserves_called P c : preserves P (called c).
Proof. by intros w. Qed.

Lemma preserves_bind P {A B} (m : M A) (k : A → M B) :
  preserves P m → (∀ a, preserves P (k a)) → preserves P (bind m k).
Proof.
  intros Hm Hk w HP. unfold bind.
  specialize (Hm w HP). destruct (m w) as [[a|e] w']; simpl in *.
  - by apply Hk.
  - done.
Qed.

Lemma preserves_if P {A} (b : bool) (m1 m2 : M A) :
  preserves P m1 → preserves P m2 → preserves P (if b then m1 else m2).
Proof. by destruct b. Qed.

Create HintDb preserves.
#[local] Hint Resolve preserves_return preserves_raise preserves_lift
  preserves_get_world preserves_called preserves_if : preserves.

Ltac preserves_steps :=
  repeat first
    [ solve [auto with preserves]
    | apply preserves_bind; [| intros ?]
    | case_match ].

(** ** The invariant is kept by the engine operations *)

Lemma quarantine_keys_lookup keys by_ m k :
  quarantine_keys keys by_ m !! k =
  (λ r, if decide (k ∈ keys) then quarantine_record by_ r else r) <$> m !! k.
Proof.
  unfold quarantine_keys. rewrite map_lookup_imap.
  by destruct (m !! k).
Qed.

Lemma quarantine_record_safe by_ r :
  safe_from_quarantine (quarantine_record by_ r) = safe_from_quarantine r.
Proof. destruct by_; simpl; [by destruct (safe_from_quarantine r) eqn:E|done]. Qed.

Lemma safe_invariant_quarantine_keys keys by_ m :
  safe_invariant m → safe_invariant (quarantine_keys keys by_ m).
Proof.
  intros Hinv k r. rewrite quarantine_keys_lookup.
  destruct (m !! k) as [r0|] eqn:Hk; simpl; [|done].
  intros [= <-]. case_decide; [|exact (Hinv k r0 Hk)].
  destruct by_ as [a|]; simpl; [|done].
  destruct (safe_from_quarantine r0) eqn:Hs; simpl.
  - intros _. exact (Hinv k r0 Hk Hs).
  - by rewrite Hs.
Qed.

Lemma safe_invariant_alter_safe b k m :
  safe_invariant m → safe_invariant (alter (safe_record b) k m).
Proof.
  intros Hinv k' r. destruct (decide (k = k')) as [<-|Hne].
  - rewrite lookup_alter_eq. destruct (m !! k) as [r0|] eqn:Hk; simpl; [|done].
    intros [= <-]. destruct b; simpl; [done|discriminate].
  - rewrite lookup_alter_ne by done. apply Hinv.
Qed.

Lemma safe_invariant_subseteq (m m' : gmap MediaKey MediaRecord) :
  m' ⊆ m → safe_invariant m → safe_invariant m'.
Proof.
  intros Hsub Hinv k r Hk. eapply Hinv. by eapply lookup_weaken.
Qed.

Lemma delete_each_subseteq adapter cands m :
  (delete_each adapter cands m).2 ⊆ m.
Proof.
  revert m. induction cands as [|k rest IH]; intros m; simpl; [done|].
  destruct (m !! k) eqn:Hk; [|apply IH].
  destruct (adapter k); [|apply IH].
  specialize (IH (delete k m)).
  destruct (delete_each adapter rest (delete k m)) as [d m'] eqn:E; simpl in *.
  etrans; [exact IH|apply delete_subseteq].
Qed.

Lemma preserves_setQuarantine keys by_ :
  preserves safe_invariant (setQuarantine keys by_).
Proof. intros w Hinv. simpl. by apply safe_invariant_quarantine_keys. Qed.

Lemma preserves_setSafe id b : preserves safe_invariant (setSafe id b).
Proof. intros w Hinv. simpl. by apply safe_invariant_alter_safe. Qed.

Lemma preserves_delete_candidates adapter cands :
  preserves safe_invariant (delete_candidates adapter cands).
Proof.
  intros w Hinv. unfold delete_candidates, bind, get_world.
  pose proof (delete_each_subseteq adapter cands (media w)) as Hsub.
  destruct (delete_each adapter cands (media w)) as [d m'] eqn:E; simpl in *.
  by eapply safe_invariant_subseteq.
Qed.

Lemma preserves_resolve P room_id : preserves P (resolve room_id).
Proof.
  intros w HP. unfold resolve, bind, get_world.
  by destruct (rooms w !! room_id).
Qed.

#[local] Hint Resolve preserves_setQuarantine preserves_setSafe
  preserves_delete_candidates preserves_resolve : preserves.

Lemma preserves_handle op request :
  preserves safe_invariant (handle op request).
Proof.
  destruct op; simpl;
    unfold QuarantineMediaInRoom_on_POST, QuarantineMediaByUser_on_POST,
      QuarantineMediaByID_on_POST, UnquarantineMediaByID_on_POST,
      ProtectMediaByID_on_POST, UnprotectMediaByID_on_POST,
      ListMediaInRoom_on_GET, PurgeMediaCacheRestServlet_on_POST,
      DeleteMediaByID_on_DELETE, DeleteMediaByDateSize_on_POST,
      UserMediaRestServlet_on_GET, UserMediaRestServlet_on_DELETE,
      assert_requester_is_admin, assert_user_is_admin,
      quarantine_media_ids_in_room, quarantine_media_ids_by_user,
      quarantine_media_by_id, mark_local_media_as_safe,
      get_media_mxcs_in_room, get_local_media, get_user_by_id,
      get_local_media_by_user_paginate, delete_old_remote_media,
      delete_local_media_ids, delete_old_local_media;
    preserves_steps.
Qed.

Create HintDb servlets.
Create HintDb store.
Create HintDb monad.

#[local] Hint Unfold QuarantineMediaInRoom_on_POST QuarantineMediaByUser_on_POST
  QuarantineMediaByID_on_POST UnquarantineMediaByID_on_POST
  ProtectMediaByID_on_POST UnprotectMediaByID_on_POST
  ListMediaInRoom_on_GET PurgeMediaCacheRestServlet_on_POST
  DeleteMediaByID_on_DELETE DeleteMediaByDateSize_on_POST
  UserMediaRestServlet_on_GET UserMediaRestServlet_on_DELETE
  assert_requester_is_admin assert_user_is_admin : servlets.

#[local] Hint Unfold quarantine_media_ids_in_room quarantine_media_ids_by_user
  quarantine_media_by_id mark_local_media_as_safe get_media_mxcs_in_room
  get_local_media get_user_by_id get_local_media_by_user_paginate
  delete_old_remote_media delete_local_media_ids delete_old_local_media
  delete_candidates setQuarantine setSafe resolve : store.

#[local] Hint Unfold bind lift raise return_ get_world put_media called : monad.

(** ** C8: every entry point refuses a caller who is not an administrator *)

(** C8.  For each of the twelve handlers: when the caller is not a proven
    server administrator the handler fails and the world it leaves is the
    world it found, so no store call was made and nothing was mutated; and
    when the authentication component identifies the requester, the failure
    is [AuthError 403] (Forbidden). *)
Theorem C8_non_admin_forbidden (op : Operation) (request : SynapseRequest)
    (w : World) :
  ¬ authorised request →
  ∃ e, handle op request w = (Raise e, w)
       ∧ (∀ rq, get_user_by_req hs request = Ok rq → is_Forbidden e).
Proof.
  intros Hnot.
  destruct (get_user_by_req hs request) as [rq|e0] eqn:Hreq.
  - destruct (is_server_admin hs (user rq)) eqn:Hadmin.
    { destruct Hnot. by exists rq. }
    destruct op; simpl; autounfold with servlets monad;
      rewrite Hreq; simpl; rewrite Hadmin; simpl;
      (eexists; split; [reflexivity|by intros ? _]).
  - destruct op; simpl; autounfold with servlets monad;
      rewrite Hreq; simpl; (eexists; split; [reflexivity|by intros ? ?]).
Qed.

(** ** C1: a protected record is never quarantined *)

Lemma protect_run request id w :
  authorised request →
  ProtectMediaByID_on_POST request id w =
  (Ok (200, []),
   with_media (alter (safe_record true) (local_key id) (media w))
     (with_call (mark_local_media_as_safe_call id true) w)).
Proof.
  intros (rq & Hreq & Hadmin).
  autounfold with servlets store monad. rewrite Hreq. simpl. by rewrite Hadmin.
Qed.

(** C1.  The invariant [safe_from_quarantine = true ⇒ quarantined_by = null]
    is kept by every operation of the admin surface, hence holds in every
    state reached from a state that has it; and protecting a record that is
    quarantined succeeds and leaves it protected with its quarantine
    cleared. *)
Theorem C1_safe_implies_not_quarantined (w0 : World) :
  safe_invariant (media w0) →
  (∀ op request, safe_invariant (media (handle op request w0).2))
  ∧ (∀ w, reachable w0 w → safe_invariant (media w))
  ∧ (∀ request id r a,
       authorised request →
       media w0 !! local_key id = Some r →
       quarantined_by r = Some a →
       ∃ w' r',
         handle (Protect id) request w0 = (Ok (200, []), w')
         ∧ media w' !! local_key id = Some r'
         ∧ safe_from_quarantine r' = true
         ∧ quarantined_by r' = None).
Proof.
  intros Hinv. split; [|split].
  - intros op request. by apply preserves_handle.
  - intros w Hreach. induction Hreach as [|w op request _ IH]; [done|].
    by apply preserves_handle.
  - intros request id r a Hauth Hr _. simpl.
    rewrite protect_run by done.
    eexists _, (safe_record true r). split; [done|]. simpl.
    by rewrite lookup_alter_eq, Hr.
Qed.

(** ** C2: purge requests are validated before anything is selected *)





(** ** C3: deleting a single item by id *)

(** C3 (as the code has it).  For an administrator: a [server_name] other
    than this server's is rejected with [SynapseError 400] "Can only delete
    local media", which carries no error code, and the world is untouched;
    with this server's name and no local record the request fails with
    [NotFoundError] after the one lookup and the media table is untouched;
    otherwise, when the byte-storage adapter removes the file, the record is
    deleted and the body is [{deleted_media: [id], total: 1}]. *)
Theorem C3_delete_by_id (request : SynapseRequest) (server_name media_id : string)
    (w : World) :
  authorised request →
  (hostname hs ≠ server_name →
     DeleteMediaByID_on_DELETE request server_name media_id w =
     (Raise (SynapseError 400 "Can only delete local media" None), w))
  ∧ (hostname hs = server_name →
     media w !! local_key media_id = None →
     ∃ w', DeleteMediaByID_on_DELETE request server_name media_id w =
             (Raise (NotFoundError "Unknown media"), w')
           ∧ media w' = media w
           ∧ calls w' = calls w ++ [get_local_media_call media_id])
  ∧ (hostname hs = server_name →
     is_Some (media w !! local_key media_id) →
     deleteLocal hs media_id = true →
     ∃ w', DeleteMediaByID_on_DELETE request server_name media_id w =
             (Ok (200, [("deleted_media", JList [JStr media_id]);
                        ("total", JInt 1)]), w')
           ∧ media w' = delete (local_key media_id) (media w)).
Proof.
  intros (rq & Hreq & Hadmin). split; [|split].
  - intros Hne. autounfold with servlets monad.
    rewrite Hreq; simpl. rewrite Hadmin; simpl.
    apply String.eqb_neq in Hne. by rewrite Hne.
  - intros Heq Hnone. autounfold with servlets store monad.
    rewrite Hreq; simpl. rewrite Hadmin; simpl.
    apply String.eqb_eq in Heq. rewrite Heq; simpl.
    rewrite Hnone. by eexists.
  - intros Heq [r Hr] Hdel. autounfold with servlets store monad.
    rewrite Hreq; simpl. rewrite Hadmin; simpl.
    apply String.eqb_eq in Heq. rewrite Heq; simpl.
    rewrite Hr; simpl. rewrite Hdel, Hr; simpl. by eexists.
Qed.

(** ** The user-media handlers, through their common checks *)

Ltac run_check H :=
  match goal with
  | |- context [get_user_by_req hs ?r] =>
      destruct (get_user_by_req hs r) as [?rq|?e] eqn:H
  | |- context [is_server_admin hs ?u] =>
      destruct (is_server_admin hs u) eqn:H
  | |- context [UserID_from_string ?s] =>
      destruct (UserID_from_string s) as [?uid|?e] eqn:H
  | |- context [is_mine ?u] => destruct (is_mine u) eqn:H
  | |- context [decide (?u ∈ users ?w)] => destruct (decide (u ∈ users w)) as [H|H]
  | |- context [parse_integer ?r "from" ?d] =>
      destruct (parse_integer r "from" d) as [?start|?e] eqn:H
  | |- context [parse_integer ?r "limit" ?d] =>
      destruct (parse_integer r "limit" d) as [?limit|?e] eqn:H
  | |- context [?x <? 0] => destruct (x <? 0) eqn:H
  | |- context [negb (has_arg ?r "order_by") && negb (has_arg ?r "dir")] =>
      destruct (negb (has_arg r "order_by") && negb (has_arg r "dir")) eqn:H
  | |- context [parse_string ?r "order_by" ?d ?a] =>
      destruct (parse_string r "order_by" d a) as [?order_by|?e] eqn:H
  | |- context [parse_string ?r "dir" ?d ?a] =>
      destruct (parse_string r "dir" d a) as [?direction|?e] eqn:H
  end; simpl; try reflexivity.

Ltac run_checks := repeat (let H := fresh "Hc" in run_check H).

Lemma on_GET_checks request user_id w :
  UserMediaRestServlet_on_GET request user_id w =
  match user_media_checks request user_id w with
  | (Ok (start, limit, (order_by, direction)), w1) =>
      (Ok (200, listing_body start limit
                  (listByUser (media w1) start limit user_id order_by direction)),
       with_call (get_local_media_by_user_paginate_call
                    start limit user_id order_by direction) w1)
  | (Raise e, w1) => (Raise e, w1)
  end.
Proof.
  unfold UserMediaRestServlet_on_GET, user_media_checks, sort_of, listing_body.
  autounfold with servlets store monad. simpl.
  run_checks.
Qed.

Lemma on_DELETE_checks request user_id w :
  UserMediaRestServlet_on_DELETE request user_id w =
  match user_media_checks request user_id w with
  | (Ok (start, limit, (order_by, direction)), w1) =>
      let page := (listByUser (media w1) start limit user_id order_by direction).1 in
      let ids := media_id <$> page in
      let dm := delete_each (λ k, deleteLocal hs k.2) (local_key <$> ids) (media w1) in
      (Ok (200, [("deleted_media", JList (JStr <$> dm.1.*2));
                 ("total", JInt (Z.of_nat (length (local_key <$> ids))))]),
       with_media dm.2
         (with_call (delete_local_media_ids_call ids)
            (with_call (get_local_media_by_user_paginate_call
                          start limit user_id order_by direction) w1)))
  | (Raise e, w1) => (Raise e, w1)
  end.
Proof.
  unfold UserMediaRestServlet_on_DELETE, user_media_checks, sort_of.
  autounfold with servlets store monad. simpl.
  run_checks.
  all: by match goal with
       | |- context [delete_each ?a ?c ?m] => destruct (delete_each a c m)
       end.
Qed.

Lemma user_media_checks_Ok request user_id w start limit sort w1 :
  user_media_checks request user_id w = (Ok (start, limit, sort), w1) →
  authorised request ∧ local_user user_id ∧ user_id ∈ users w
  ∧ parse_integer request "from" 0 = Ok start
  ∧ parse_integer request "limit" 100 = Ok limit
  ∧ 0 ≤ start ∧ 0 ≤ limit
  ∧ sort_of request = Ok sort
  ∧ w1 = with_call (get_user_by_id_call user_id) w.
Proof.
  unfold user_media_checks. autounfold with servlets store monad. simpl.
  destruct (get_user_by_req hs request) as [rq|?] eqn:Hreq; simpl; [|done].
  destruct (is_server_admin hs (user rq)) eqn:Hadmin; simpl; [|done].
  destruct (UserID_from_string user_id) as [uid|?] eqn:Huid; simpl; [|done].
  destruct (is_mine uid) eqn:Hmine; simpl; [|done].
  destruct (decide (user_id ∈ users w)) as [Hin|Hin]; simpl; [|done].
  destruct (parse_integer request "from" 0) as [s|?] eqn:Hfrom; simpl; [|done].
  destruct (parse_integer request "limit" 100) as [l|?] eqn:Hlim; simpl; [|done].
  destruct (s <? 0) eqn:Hs; simpl; [done|].
  destruct (l <? 0) eqn:Hl; simpl; [done|].
  destruct (sort_of request) as [so|?] eqn:Hsort; simpl; [|done].
  intros [= <- <- <- <-].
  apply Z.ltb_ge in Hs, Hl.
  repeat split; try done.
  - by exists rq.
  - by exists uid.
Qed.

Lemma user_media_checks_Raise request user_id w e w1 :
  user_media_checks request user_id w = (Raise e, w1) →
  w1 = w ∨ w1 = with_call (get_user_by_id_call user_id) w.
Proof.
  unfold user_media_checks. autounfold with servlets store monad. simpl.
  destruct (get_user_by_req hs request) as [rq|?]; simpl; [|by intros [= _ <-]; left].
  destruct (is_server_admin hs (user rq)); simpl; [|by intros [= _ <-]; left].
  destruct (UserID_from_string user_id) as [uid|?]; simpl; [|by intros [= _ <-]; left].
  destruct (is_mine uid); simpl; [|by intros [= _ <-]; left].
  destruct (decide (user_id ∈ users w)); simpl; [|by intros [= _ <-]; right].
  destruct (parse_integer request "from" 0) as [s|?]; simpl; [|by intros [= _ <-]; right].
  destruct (parse_integer request "limit" 100) as [l|?]; simpl; [|by intros [= _ <-]; right].
  destruct (s <? 0); simpl; [by intros [= _ <-]; right|].
  destruct (l <? 0); simpl; [by intros [= _ <-]; right|].
  destruct (sort_of request); simpl; [done|by intros [= _ <-]; right].
Qed.

Lemma user_media_checks_run request user_id w :
  authorised request → local_user user_id → user_id ∈ users w →
  user_media_checks request user_id w =
  (match parse_integer request "from" 0 with
   | Ok start =>
       match parse_integer request "limit" 100 with
       | Ok limit =>
           if start <? 0 then
             Raise (SynapseError 400
                      "Query parameter from must be a string representing a positive integer."
                      (Some INVALID_PARAM))
           else if limit <? 0 then
             Raise (SynapseError 400
                      "Query parameter limit must be a string representing a positive integer."
                      (Some INVALID_PARAM))
           else match sort_of request with
                | Ok sort => Ok (start, limit, sort)
                | Raise e => Raise e
                end
       | Raise e => Raise e
       end
   | Raise e => Raise e
   end, with_call (get_user_by_id_call user_id) w).
Proof.
  intros (rq & Hreq & Hadmin) (uid & Huid & Hmine) Hin.
  unfold user_media_checks. autounfold with servlets store monad. simpl.
  rewrite Hreq; simpl. rewrite Hadmin; simpl. rewrite Huid; simpl.
  rewrite Hmine; simpl. rewrite decide_True by done; simpl.
  destruct (parse_integer request "from" 0) as [s|?]; simpl; [|done].
  destruct (parse_integer request "limit" 100) as [l|?]; simpl; [|done].
  destruct (s <? 0); simpl; [done|].
  destruct (l <? 0); simpl; [done|].
  by destruct (sort_of request).
Qed.

Lemma has_arg_Some request name v :
  args request !! name = Some v → has_arg request name = true.
Proof. intros Hv. unfold has_arg. apply bool_decide_eq_true_2. by exists v. Qed.

Lemma has_arg_None request name :
  args request !! name = None → has_arg request name = false.
Proof.
  intros Hv. unfold has_arg. apply bool_decide_eq_false_2.
  rewrite Hv. by intros [? ?].
Qed.


(** ** Deletion touches only its candidates *)

Lemma delete_each_lookup_ne adapter cands m k :
  k ∉ cands → (delete_each adapter cands m).2 !! k = m !! k.
Proof.
  revert m. induction cands as [|c rest IH]; intros m Hk; simpl; [done|].
  apply not_elem_of_cons in Hk as [Hne Hk].
  destruct (m !! c) eqn:Hc; [|by apply IH].
  destruct (adapter c); [|by apply IH].
  specialize (IH (delete c m) Hk).
  destruct (delete_each adapter rest (delete c m)) as [d m']; simpl in *.
  rewrite IH. by apply lookup_delete_ne.
Qed.

Lemma delete_each_size_filter (P : MediaKey * MediaRecord → Prop)
    `{∀ x, Decision (P x)} adapter cands m :
  (size (filter P m) ≤ size (filter P (delete_each adapter cands m).2) + length cands)%nat.
Proof.
  revert m. induction cands as [|c rest IH]; intros m; simpl; [lia|].
  destruct (m !! c) eqn:Hc; [|specialize (IH m); lia].
  destruct (adapter c); [|specialize (IH m); lia].
  specialize (IH (delete c m)).
  destruct (delete_each adapter rest (delete c m)) as [d m']; simpl in *.
  rewrite map_filter_delete in IH.
  rewrite map_size_delete in IH.
  destruct (filter P m !! c); simpl in IH; unfold id in IH; lia.
Qed.

Lemma listByUser_page_length m start limit u order_by direction :
  (length (listByUser m start limit u order_by direction).1 ≤ Z.to_nat limit)%nat.
Proof. unfold listByUser. simpl. apply firstn_le_length. Qed.

Lemma listByUser_total m start limit u order_by direction :
  (listByUser m start limit u order_by direction).2 =
  Z.of_nat (size (media_of_user u m)).
Proof.
  unfold listByUser. simpl.
  rewrite merge_sort_Permutation, length_fmap, length_map_to_list. done.
Qed.

(** ** C4: the pagination token *)

(** C4.  Every response of the GET user-media handler comes from one listing
    call with the parsed [from] = start and [limit]; with [page] and [total]
    what the listing returned, the body has [next_token] if and only if
    [start + limit < total], and then [next_token = start + len(page)]. *)
Theorem C4_next_token (request : SynapseRequest) (user_id : string) (w w' : World)
    (resp : Z * JsonDict) :
  UserMediaRestServlet_on_GET request user_id w = (Ok resp, w') →
  ∃ start limit order_by direction,
    parse_integer request "from" 0 = Ok start
    ∧ parse_integer request "limit" 100 = Ok limit
    ∧ calls w' = calls w ++
        [get_user_by_id_call user_id;
         get_local_media_by_user_paginate_call start limit user_id order_by direction]
    ∧ let page := (listByUser (media w) start limit user_id order_by direction).1 in
      let total := (listByUser (media w) start limit user_id order_by direction).2 in
      jget "media" resp.2 = Some (JList (row_json <$> page))
      ∧ jget "total" resp.2 = Some (JInt total)
      ∧ (is_Some (jget "next_token" resp.2) ↔ start + limit < total)
      ∧ (∀ v, jget "next_token" resp.2 = Some v →
              v = JInt (start + Z.of_nat (length page))).
Proof.
  rewrite on_GET_checks.
  destruct (user_media_checks request user_id w)
    as [[[[start limit] [order_by direction]]|e] w1] eqn:Hc; [|done].
  intros Hrun. injection Hrun as <- <-.
  apply user_media_checks_Ok in Hc
    as (_ & _ & _ & Hfrom & Hlimit & _ & _ & _ & ->).
  exists start, limit, order_by, direction.
  split; [done|]. split; [done|]. split.
  { simpl. by rewrite <- app_assoc. }
  cbn [media with_call]. unfold listing_body.
  generalize (listByUser (media w) start limit user_id order_by direction).
  intros [page total]. cbn [fst snd].
  destruct (start + limit <? total) eqn:Hlt.
  - apply Z.ltb_lt in Hlt. simpl.
    split; [done|]. split; [done|]. split.
    + split; [done|]. intros _. by eexists.
    + intros v Hv. by simplify_eq.
  - apply Z.ltb_ge in Hlt. simpl.
    split; [done|]. split; [done|]. split.
    + split; [by intros [? ?]|intros ?; lia].
    + by intros v.
Qed.

(** ** C5: the default sort *)


(** ** C9: DELETE removes at most one page *)

(** C9.  Whenever the DELETE user-media handler answers, it has listed one
    page with the parsed [from], [limit] (100 when the request gives none)
    and sort, and passed exactly the [media_id]s of that page to the
    deletion.  The page has at most [limit] rows, every record outside the
    page is untouched, and of the user's media at most [limit] are gone: a
    user with more than [limit] media keeps some. *)
Theorem C9_delete_one_page (request : SynapseRequest) (uid : string)
    (w w' : World) (resp : Z * JsonDict) :
  UserMediaRestServlet_on_DELETE request uid w = (Ok resp, w') →
  ∃ start limit order_by direction,
    parse_integer request "from" 0 = Ok start
    ∧ parse_integer request "limit" 100 = Ok limit
    ∧ (args request !! "limit" = None → limit = 100)
    ∧ let page := (listByUser (media w) start limit uid order_by direction).1 in
      calls w' = calls w ++
        [get_user_by_id_call uid;
         get_local_media_by_user_paginate_call start limit uid order_by direction;
         delete_local_media_ids_call (media_id <$> page)]
      ∧ Z.of_nat (length page) ≤ limit
      ∧ (∀ k, k ∉ local_key <$> (media_id <$> page) → media w' !! k = media w !! k)
      ∧ Z.of_nat (size (media_of_user uid (media w))) - limit
        ≤ Z.of_nat (size (media_of_user uid (media w')))
      ∧ (limit < Z.of_nat (size (media_of_user uid (media w))) →
         ∃ k r, media_of_user uid (media w') !! k = Some r
                ∧ media w !! k = Some r).
Proof.
  rewrite on_DELETE_checks.
  destruct (user_media_checks request uid w)
    as [[[[start limit] [order_by direction]]|e] w1] eqn:Hc; [|done].
  intros Hrun. injection Hrun as <- <-.
  apply user_media_checks_Ok in Hc
    as (_ & _ & _ & Hfrom & Hlimit & _ & Hl0 & _ & ->).
  exists start, limit, order_by, direction.
  split; [done|]. split; [done|]. split.
  { intros Hnone. unfold parse_integer in Hlimit. rewrite Hnone in Hlimit.
    by simplify_eq. }
  simpl.
  set (page := (listByUser (media w) start limit uid order_by direction).1).
  pose proof (listByUser_page_length (media w) start limit uid
                order_by direction) as Hlen. fold page in Hlen.
  pose proof (delete_each_size_filter
                (λ kr, kr.1.1 = hostname hs ∧ user_id kr.2 = Some uid)
                (λ k, deleteLocal hs k.2)
                (local_key <$> (media_id <$> page)) (media w)) as Hsize.
  rewrite !length_fmap in Hsize.
  fold (media_of_user uid (media w)) in Hsize.
  fold (media_of_user uid
          (delete_each (λ k, deleteLocal hs k.2)
             (local_key <$> (media_id <$> page)) (media w)).2) in Hsize.
  assert (Hrem : Z.of_nat (size (media_of_user uid (media w))) - limit
                 ≤ Z.of_nat (size (media_of_user uid
                      (delete_each (λ k, deleteLocal hs k.2)
                         (local_key <$> (media_id <$> page)) (media w)).2))).
  { clear Hfrom Hlimit. lia. }
  split; [by rewrite <- !app_assoc|].
  split.
  { clear Hfrom Hlimit Hrem Hsize. unfold page, listByUser in Hlen.
    simpl in Hlen. clear page. revert Hlen. generalize (Z.to_nat start).
    intros n Hlen. lia. } split; [intros k Hk; by apply delete_each_lookup_ne|].
  split; [exact Hrem|].
  intros Hmore.
  destruct (map_choose (media_of_user uid
              (delete_each (λ k, deleteLocal hs k.2)
                 (local_key <$> (media_id <$> page)) (media w)).2))
    as (k & r & Hkr).
  { intros Hempty. rewrite Hempty, map_size_empty in Hrem. lia. }
  exists k, r. split; [done|].
  apply map_lookup_filter_Some in Hkr as [Hkr _].
  eapply lookup_weaken; [exact Hkr|apply delete_each_subseteq].
Qed.

(** ** C10: the user-media handlers check before they list or delete *)

Lemma user_media_fails_as_checks (h : SynapseRequest → string → M (Z * JsonDict))
    request uid w e w' :
  h = UserMediaRestServlet_on_GET ∨ h = UserMediaRestServlet_on_DELETE →
  h request uid w = (Raise e, w') ↔ user_media_checks request uid w = (Raise e, w').
Proof.
  intros [-> | ->]; [rewrite on_GET_checks|rewrite on_DELETE_checks];
    destruct (user_media_checks request uid w)
      as [[[[start limit] [order_by direction]]|e0] w1]; simpl; split; intros Heq;
    by simplify_eq.
Qed.

Lemma UserID_from_string_Raise s e :
  UserID_from_string s = Raise e → ∃ msg errcode, e = SynapseError 400 msg errcode.
Proof.
  unfold UserID_from_string. intros Hs.
  repeat case_match; simplify_eq; by eexists _, _.
Qed.

(** C10.  For the GET and the DELETE user-media handler alike, with an
    administrator calling: a negative [from] or [limit] fails with
    [SynapseError 400] code [INVALID_PARAM]; a [user_id] that is not a local
    user's is rejected with a 400 error before any store call; an unknown
    local user fails with [NotFoundError].  Whenever a request fails, the
    media table is as before and the only store call made, if any, is the
    user lookup: nothing was listed or deleted. *)
Theorem C10_user_media_validation (h : SynapseRequest → string → M (Z * JsonDict))
    (request : SynapseRequest) (uid : string) (w : World) :
  h = UserMediaRestServlet_on_GET ∨ h = UserMediaRestServlet_on_DELETE →
  (∀ start limit,
     authorised request → local_user uid → uid ∈ users w →
     parse_integer request "from" 0 = Ok start →
     parse_integer request "limit" 100 = Ok limit →
     start < 0 ∨ limit < 0 →
     ∃ e, h request uid w = (Raise e, with_call (get_user_by_id_call uid) w)
          ∧ is_InvalidParameter e)
  ∧ (authorised request → ¬ local_user uid →
     ∃ msg errcode, h request uid w = (Raise (SynapseError 400 msg errcode), w))
  ∧ (authorised request → local_user uid → uid ∉ users w →
     h request uid w =
     (Raise (NotFoundError "Unknown user"), with_call (get_user_by_id_call uid) w))
  ∧ (∀ e w', h request uid w = (Raise e, w') →
     media w' = media w
     ∧ (calls w' = calls w ∨ calls w' = calls w ++ [get_user_by_id_call uid])).
Proof.
  intros Hh. split; [|split; [|split]].
  - intros start limit Hauth Hlocal Hin Hfrom Hlimit Hneg.
    pose proof (user_media_checks_run request uid w Hauth Hlocal Hin) as Hrun.
    rewrite Hfrom, Hlimit in Hrun.
    destruct (start <? 0) eqn:Hs.
    { eexists. split; [by apply user_media_fails_as_checks|done]. }
    destruct (limit <? 0) eqn:Hl.
    { eexists. split; [by apply user_media_fails_as_checks|done]. }
    apply Z.ltb_ge in Hs, Hl. clear Hfrom Hlimit Hrun. lia.
  - intros (rq & Hreq & Hadmin) Hnot.
    assert (∃ msg errcode,
              user_media_checks request uid w = (Raise (SynapseError 400 msg errcode), w))
      as (msg & errcode & Hrun).
    { unfold user_media_checks. autounfold with servlets store monad. simpl.
      rewrite Hreq; simpl. rewrite Hadmin; simpl.
      destruct (UserID_from_string uid) as [u|e] eqn:Hu; simpl.
      - destruct (is_mine u) eqn:Hmine; simpl; [|by eexists _, _].
        destruct Hnot. by exists u.
      - apply UserID_from_string_Raise in Hu as (msg & errcode & ->).
        by eexists _, _. }
    exists msg, errcode. by apply user_media_fails_as_checks.
  - intros (rq & Hreq & Hadmin) (u & Hu & Hmine) Hnotin.
    apply user_media_fails_as_checks; [done|].
    unfold user_media_checks. autounfold with servlets store monad. simpl.
    rewrite Hreq; simpl. rewrite Hadmin; simpl. rewrite Hu; simpl.
    rewrite Hmine; simpl. by rewrite decide_False.
  - intros e w' Hfail.
    apply user_media_fails_as_checks in Hfail; [|done].
    apply user_media_checks_Raise in Hfail as [-> | ->]; simpl; auto.
Qed.

(** ** C6: what quarantining a room counts *)

Lemma with_quarantined_by_id q r :
  with_quarantined_by q r = r ↔ quarantined_by r = q.
Proof.
  split.
  - intros Heq. by rewrite <- Heq.
  - intros <-. by destruct r.
Qed.

Lemma quarantine_record_changes a r :
  quarantine_record (Some a) r ≠ r ↔
  safe_from_quarantine r = false ∧ quarantined_by r ≠ Some a.
Proof.
  unfold quarantine_record.
  destruct (safe_from_quarantine r) eqn:Hsafe.
  - split; [done|]. by intros [? _].
  - rewrite with_quarantined_by_id. naive_solver.
Qed.

Lemma elem_of_affected keys a m k :
  k ∈ affected keys (Some a) m ↔
  k ∈ keys ∧ ∃ r, m !! k = Some r
                  ∧ safe_from_quarantine r = false ∧ quarantined_by r ≠ Some a.
Proof.
  unfold affected, quarantine_changes. rewrite elem_of_filter.
  destruct (m !! k) as [r|] eqn:Hk.
  - rewrite bool_decide_eq_true, quarantine_record_changes. naive_solver.
  - naive_solver.
Qed.

Lemma affected_changed keys by_ m k :
  k ∈ affected keys by_ m ↔ quarantine_keys keys by_ m !! k ≠ m !! k.
Proof.
  unfold affected, quarantine_changes.
  rewrite elem_of_filter, quarantine_keys_lookup.
  destruct (m !! k) as [r|] eqn:Hk; simpl.
  - rewrite bool_decide_eq_true.
    destruct (decide (k ∈ keys)) as [Hin|Hin].
    + split.
      * intros [Hne _] Heq. apply Hne. by injection Heq.
      * intros Hne. split; [|done]. intros Heq. apply Hne. by rewrite Heq.
    + split; [by intros [_ ?]|]. intros Hne. by destruct Hne.
  - split; [by intros [? _]|]. intros Hne. by destruct Hne.
Qed.

Lemma quarantine_room_run request room_id w rq p :
  get_user_by_req hs request = Ok rq →
  is_server_admin hs (user rq) = true →
  rooms w !! room_id = Some p →
  QuarantineMediaInRoom_on_POST request room_id w =
  (Ok (200, [("num_quarantined",
              JInt (Z.of_nat (size (affected (room_keys p) (Some (user rq)) (media w)))))]),
   with_media (quarantine_keys (room_keys p) (Some (user rq)) (media w))
     (with_call (quarantine_media_ids_in_room_call room_id (user rq)) w)).
Proof.
  intros Hreq Hadmin Hroom. autounfold with servlets store monad.
  rewrite Hreq; simpl. rewrite Hadmin; simpl. by rewrite Hroom.
Qed.

(** C6.  When an administrator quarantines a room, [num_quarantined] is the
    number of keys of the resolved media whose record actually changed; these
    are the existing records of the room that are not [safe_from_quarantine]
    and not already quarantined by the actor, and a protected record is left
    as it was.  With local media [A], [B] ([B] protected) and remote media
    [C], none quarantined before, the count is 2 and [B] stays
    unquarantined. *)
Theorem C6_quarantine_room_count (request : SynapseRequest) (room_id : string)
    (w : World) (rq : Requester) (p : gset string * gset MediaKey) :
  get_user_by_req hs request = Ok rq →
  is_server_admin hs (user rq) = true →
  rooms w !! room_id = Some p →
  ∃ n w',
    QuarantineMediaInRoom_on_POST request room_id w =
      (Ok (200, [("num_quarantined", JInt n)]), w')
    ∧ n = Z.of_nat (size (affected (room_keys p) (Some (user rq)) (media w)))
    ∧ (∀ k, k ∈ affected (room_keys p) (Some (user rq)) (media w)
            ↔ media w' !! k ≠ media w !! k)
    ∧ (∀ k, k ∈ affected (room_keys p) (Some (user rq)) (media w)
            ↔ k ∈ room_keys p
              ∧ ∃ r, media w !! k = Some r
                     ∧ safe_from_quarantine r = false
                     ∧ quarantined_by r ≠ Some (user rq))
    ∧ (∀ k r, media w !! k = Some r → safe_from_quarantine r = true →
              media w' !! k = Some r)
    ∧ (∀ A B C s rA rB rC,
         p = ({[A; B]}, {[(s, C)]}) → s ≠ hostname hs →
         media w !! local_key A = Some rA →
         media w !! local_key B = Some rB →
         media w !! (s, C) = Some rC →
         safe_from_quarantine rA = false → quarantined_by rA = None →
         safe_from_quarantine rB = true → quarantined_by rB = None →
         safe_from_quarantine rC = false → quarantined_by rC = None →
         n = 2
         ∧ media w' !! local_key B = Some rB
         ∧ quarantined_by <$> media w' !! local_key A = Some (Some (user rq))
         ∧ quarantined_by <$> media w' !! local_key B = Some None
         ∧ quarantined_by <$> media w' !! (s, C) = Some (Some (user rq))).
Proof.
  intros Hreq Hadmin Hroom.
  eexists _, _. split; [by apply quarantine_room_run|].
  split; [done|]. simpl.
  split; [apply affected_changed|]. split; [apply elem_of_affected|].
  assert (Hsafe : ∀ k r, media w !! k = Some r → safe_from_quarantine r = true →
            quarantine_keys (room_keys p) (Some (user rq)) (media w) !! k = Some r).
  { intros k r Hk Hs. rewrite quarantine_keys_lookup, Hk. simpl.
    case_decide; [|done]. by rewrite Hs. }
  split; [exact Hsafe|].
  intros A B C s rA rB rC -> Hs HA HB HC HsA HqA HsB HqB HsC HqC.
  assert (Hkeys : room_keys ({[A; B]}, {[(s, C)]})
                  = {[local_key A; local_key B; (s, C)]}).
  { unfold room_keys. simpl. rewrite set_map_union_L, !set_map_singleton_L.
    set_solver. }
  assert (Haff : affected (room_keys ({[A; B]}, {[(s, C)]})) (Some (user rq)) (media w)
                 = {[local_key A; (s, C)]}).
  { apply set_eq. intros k. rewrite elem_of_affected, Hkeys.
    rewrite !elem_of_union, !elem_of_singleton. split.
    - intros ([[-> | ->] | ->] & r & Hr & Hsr & _); [by left| |by right].
      rewrite HB in Hr. simplify_eq. congruence.
    - intros [-> | ->].
      + split; [by left; left|]. exists rA. rewrite HqA. done.
      + split; [by right|]. exists rC. rewrite HqC. done. }
  split.
  { rewrite Haff. rewrite size_union, !size_singleton; [done|].
    apply disjoint_singleton_l. rewrite elem_of_singleton.
    unfold local_key. intros [= ? ?]. by destruct Hs. }
  split; [by apply Hsafe|].
  rewrite !quarantine_keys_lookup, HA, HB, HC, Hkeys. simpl.
  rewrite !decide_True by set_solver.
  unfold quarantine_record. by rewrite HsA, HsB, HsC, HqB.
Qed.

(** ** C7: unquarantine is [setQuarantine] with null, and idempotent *)

Lemma quarantine_keys_None_idemp keys m :
  quarantine_keys keys None (quarantine_keys keys None m) = quarantine_keys keys None m.
Proof.
  apply map_eq. intros k. rewrite !quarantine_keys_lookup.
  destruct (m !! k) as [r|]; simpl; [|done]. by case_decide.
Qed.

Lemma quarantine_keys_None_clear keys m :
  (∀ k r, k ∈ keys → m !! k = Some r → quarantined_by r = None) →
  quarantine_keys keys None m = m.
Proof.
  intros Hclear. apply map_eq. intros k. rewrite quarantine_keys_lookup.
  destruct (m !! k) as [r|] eqn:Hk; simpl; [|done].
  case_decide; [|done]. f_equal. simpl.
  apply with_quarantined_by_id. by eapply Hclear.
Qed.

Lemma unquarantine_run request server id w :
  authorised request →
  UnquarantineMediaByID_on_POST request server id w =
  (Ok (200, []),
   with_call (quarantine_media_by_id_call server id None)
     (setQuarantine {[ (server, id) ]} None w).2).
Proof.
  intros (rq & Hreq & Hadmin). autounfold with servlets store monad.
  rewrite Hreq; simpl. by rewrite Hadmin.
Qed.

(** C7.  For an administrator, [unquarantineById] answers [200, {}] and
    leaves the world [setQuarantine({(server_name, media_id)}, null)] leaves,
    with its own call logged.  It never fails: on a record that is already
    unquarantined, and on a key without a record, it succeeds and the media
    table is unchanged; applied a second time it succeeds again and the media
    table is the one after the first application. *)
Theorem C7_unquarantine_idempotent (request : SynapseRequest)
    (server id : string) (w : World) :
  authorised request →
  ∃ w1 w2,
    UnquarantineMediaByID_on_POST request server id w = (Ok (200, []), w1)
    ∧ w1 = with_call (quarantine_media_by_id_call server id None)
             (setQuarantine {[ (server, id) ]} None w).2
    ∧ media w1 = media (setQuarantine {[ (server, id) ]} None w).2
    ∧ UnquarantineMediaByID_on_POST request server id w1 = (Ok (200, []), w2)
    ∧ media w2 = media w1
    ∧ (∀ r, media w !! (server, id) = Some r → quarantined_by r = None →
            media w1 = media w)
    ∧ (media w !! (server, id) = None → media w1 = media w).
Proof.
  intros Hauth. eexists _, _.
  split; [by apply unquarantine_run|]. split; [done|]. split; [done|].
  split; [by apply unquarantine_run|]. simpl.
  split; [apply quarantine_keys_None_idemp|]. split.
  - intros r Hr Hq. apply quarantine_keys_None_clear.
    intros k r' Hk Hr'. apply elem_of_singleton in Hk as ->. congruence.
  - intros Hnone. apply quarantine_keys_None_clear.
    intros k r' Hk Hr'. apply elem_of_singleton in Hk as ->. congruence.
Qed.

(** * Further properties of the servlets *)

(** ** Rules for the step predicates *)

Lemma readonly_return {A} (a : A) : readonly (return_ a).
Proof. by intros w. Qed.

Lemma readonly_raise {A} (e : Error) : readonly (raise (A := A) e).
Proof. by intros w. Qed.

Lemma readonly_lift {A} (r : Result A) : readonly (lift r).
Proof. by intros w. Qed.

Lemma readonly_get_world : readonly get_world.
Proof. by intros w. Qed.

Lemma readonly_called c : readonly (called c).
Proof. by intros w. Qed.

Lemma readonly_bind {A B} (m : M A) (k : A → M B) :
  readonly m → (∀ a, readonly (k a)) → readonly (bind m k).
Proof.
  intros Hm Hk w. unfold bind. specialize (Hm w).
  destruct (m w) as [[a|e] w1]; simpl in *; [|done].
  by rewrite Hk.
Qed.

Lemma never_raises_return {A} (a : A) : never_raises (return_ a).
Proof. intros w. by eexists _, _. Qed.

Lemma never_raises_get_world : never_raises get_world.
Proof. intros w. by eexists _, _. Qed.

Lemma never_raises_called c : never_raises (called c).
Proof. intros w. by eexists _, _. Qed.

Lemma never_raises_put_media m : never_raises (put_media m).
Proof. intros w. by eexists _, _. Qed.

Lemma never_raises_bind {A B} (m : M A) (k : A → M B) :
  never_raises m → (∀ a, never_raises (k a)) → never_raises (bind m k).
Proof.
  intros Hm Hk w. unfold bind. destruct (Hm w) as (a & w1 & ->). apply Hk.
Qed.

Lemma quiet_return {A} (a : A) : quiet (return_ a).
Proof. intros w. split; [done|]. exists []. by rewrite app_nil_r. Qed.

Lemma quiet_raise {A} (e : Error) : quiet (raise (A := A) e).
Proof. intros w. split; [done|]. exists []. by rewrite app_nil_r. Qed.

Lemma quiet_lift {A} (r : Result A) : quiet (lift r).
Proof. intros w. split; [done|]. exists []. by rewrite app_nil_r. Qed.

Lemma quiet_get_world : quiet get_world.
Proof. intros w. split; [done|]. exists []. by rewrite app_nil_r. Qed.

Lemma quiet_called c : mutating c = false → quiet (called c).
Proof. intros Hc w. split; [done|]. exists [c]. split; [done|]. by constructor. Qed.

Lemma quiet_bind {A B} (m : M A) (k : A → M B) :
  quiet m → (∀ a, quiet (k a)) → quiet (bind m k).
Proof.
  intros Hm Hk w. unfold bind. destruct (Hm w) as (Hmedia & cs & Hcs & Hquiet).
  destruct (m w) as [[a|e] w1]; simpl in *; [|by eauto].
  destruct (Hk a w1) as (Hmedia' & cs' & Hcs' & Hquiet').
  split; [congruence|]. exists (cs ++ cs'). split.
  - by rewrite Hcs', Hcs, app_assoc.
  - by apply Forall_app.
Qed.

Lemma store_error_only_never_raises {A} (m : M A) :
  never_raises m → store_error_only m.
Proof. intros Hm w e w' Hrun. destruct (Hm w) as (a & w1 & Hok). congruence. Qed.

Lemma store_error_only_raise {A} (e : Error) :
  ¬ servlet_error e → store_error_only (raise (A := A) e).
Proof. intros He w e' w' [= <- _]. done. Qed.

Lemma store_error_only_bind {A B} (m : M A) (k : A → M B) :
  store_error_only m → (∀ a, store_error_only (k a)) → store_error_only (bind m k).
Proof.
  intros Hm Hk w e w'. unfold bind.
  destruct (m w) as [[a|e1] w1] eqn:Hrun.
  - apply Hk.
  - intros [= <- _]. by eapply Hm.
Qed.

Lemma guarded_quiet {A} (m : M A) : quiet m → guarded m.
Proof. intros Hm w e w' Hrun _. specialize (Hm w). by rewrite Hrun in Hm. Qed.

Lemma guarded_store_error_only {A} (m : M A) : store_error_only m → guarded m.
Proof. intros Hm w e w' Hrun He. by destruct (Hm w e w' Hrun). Qed.

Lemma guarded_bind_quiet {A B} (m : M A) (k : A → M B) :
  quiet m → (∀ a, guarded (k a)) → guarded (bind m k).
Proof.
  intros Hm Hk w e w'. unfold bind.
  destruct (Hm w) as (Hmedia & cs & Hcs & Hquiet).
  destruct (m w) as [[a|e1] w1]; simpl in *.
  - intros Hrun He. destruct (Hk a w1 e w' Hrun He) as (Hmedia' & cs' & Hcs' & Hquiet').
    split; [congruence|]. exists (cs ++ cs'). split.
    + by rewrite Hcs', Hcs, app_assoc.
    + by apply Forall_app.
  - intros [= _ <-] _. eauto.
Qed.

Lemma logs_return Q {A} (a : A) : logs Q (return_ a).
Proof. intros w. exists []. by rewrite app_nil_r. Qed.

Lemma logs_raise Q {A} (e : Error) : logs Q (raise (A := A) e).
Proof. intros w. exists []. by rewrite app_nil_r. Qed.

Lemma logs_lift Q {A} (r : Result A) : logs Q (lift r).
Proof. intros w. exists []. by rewrite app_nil_r. Qed.

Lemma logs_get_world Q : logs Q get_world.
Proof. intros w. exists []. by rewrite app_nil_r. Qed.

Lemma logs_put_media Q m : logs Q (put_media m).
Proof. intros w. exists []. by rewrite app_nil_r. Qed.

Lemma logs_called (Q : StoreCall → Prop) c : Q c → logs Q (called c).
Proof. intros Hc w. exists [c]. split; [done|]. by constructor. Qed.

Lemma logs_bind Q {A B} (m : M A) (k : A → M B) :
  logs Q m → (∀ a, logs Q (k a)) → logs Q (bind m k).
Proof.
  intros Hm Hk w. unfold bind. destruct (Hm w) as (cs & Hcs & HQ).
  destruct (m w) as [[a|e] w1]; simpl in *; [|by exists cs].
  destruct (Hk a w1) as (cs' & Hcs' & HQ').
  exists (cs ++ cs'). split.
  - by rewrite Hcs', Hcs, app_assoc.
  - by apply Forall_app.
Qed.

Lemma answers_return {A} (P : A → Prop) (a : A) : P a → answers P (return_ a).
Proof. intros Ha w a' w' [= <- _]. done. Qed.

Lemma answers_raise {A} (P : A → Prop) (e : Error) : answers P (raise e).
Proof. by intros w a w'. Qed.

Lemma answers_bind {A B} (P : B → Prop) (m : M A) (k : A → M B) :
  (∀ a, answers P (k a)) → answers P (bind m k).
Proof.
  intros Hk w b w'. unfold bind.
  destruct (m w) as [[a|e] w1]; [apply Hk|done].
Qed.

Ltac readonly_steps :=
  repeat first
    [ apply readonly_return | apply readonly_raise | apply readonly_lift
    | apply readonly_get_world | apply readonly_called
    | apply readonly_bind; [| intros ?]
    | case_match ].

Ltac never_raises_steps :=
  repeat first
    [ apply never_raises_return | apply never_raises_get_world
    | apply never_raises_called | apply never_raises_put_media
    | apply never_raises_bind; [| intros ?]
    | case_match ].

Ltac quiet_steps :=
  repeat first
    [ apply quiet_return | apply quiet_raise | apply quiet_lift
    | apply quiet_get_world | apply quiet_called; reflexivity
    | apply quiet_bind; [| intros ?]
    | case_match ].

Ltac store_error_only_steps :=
  repeat first
    [ solve [apply store_error_only_never_raises; never_raises_steps]
    | apply store_error_only_raise; exact id
    | apply store_error_only_bind; [| intros ?]
    | progress cbn beta iota
    | case_match ].

Ltac guarded_steps :=
  repeat first
    [ solve [apply guarded_quiet; quiet_steps]
    | solve [apply guarded_store_error_only; store_error_only_steps]
    | apply guarded_bind_quiet; [solve [quiet_steps] | intros ?]
    | progress cbn beta iota
    | case_match ].

Ltac logs_steps :=
  repeat first
    [ apply logs_return | apply logs_raise | apply logs_lift
    | apply logs_get_world | apply logs_put_media
    | apply logs_called; reflexivity
    | apply logs_bind; [| intros ?]
    | case_match ].

Ltac answers_steps :=
  repeat first
    [ apply answers_raise
    | apply answers_bind; intros ?
    | case_match ].

Ltac unfold_handlers :=
  unfold QuarantineMediaInRoom_on_POST, QuarantineMediaByUser_on_POST,
    QuarantineMediaByID_on_POST, UnquarantineMediaByID_on_POST,
    ProtectMediaByID_on_POST, UnprotectMediaByID_on_POST,
    ListMediaInRoom_on_GET, PurgeMediaCacheRestServlet_on_POST,
    DeleteMediaByID_on_DELETE, DeleteMediaByDateSize_on_POST,
    UserMediaRestServlet_on_GET, UserMediaRestServlet_on_DELETE,
    assert_requester_is_admin, assert_user_is_admin,
    quarantine_media_ids_in_room, quarantine_media_ids_by_user,
    quarantine_media_by_id, mark_local_media_as_safe,
    get_media_mxcs_in_room, get_local_media, get_user_by_id,
    get_local_media_by_user_paginate, delete_old_remote_media,
    delete_local_media_ids, delete_old_local_media,
    delete_candidates, setQuarantine, setSafe, resolve.

(** ** The servlets' own failures come before any mutation *)

(** Whenever one of the twelve handlers fails with an error the servlet code
    raises ([SynapseError], [AuthError] or [NotFoundError]: the errors of the
    authentication, of the parsers and of the handlers' own checks), no flag
    call and no deletion call has been made and the media table is the one
    it found: each of these checks stands before the handler's one mutating
    call, and no statement after that call raises.  What the store itself
    raises from inside a call is not covered.  The two listing handlers leave
    the media table alone whatever they answer. *)
Theorem failed_request_has_no_effect (op : Operation) (request : SynapseRequest)
    (w : World) :
  (∀ e w', handle op request w = (Raise e, w') → servlet_error e →
     media w' = media w
     ∧ ∃ cs, calls w' = calls w ++ cs ∧ Forall (λ c, mutating c = false) cs)
  ∧ (∀ room_id, op = ListRoom room_id → media (handle op request w).2 = media w)
  ∧ (∀ uid, op = ListUserMedia uid → media (handle op request w).2 = media w).
Proof.
  split; [|split].
  - assert (Hguarded : guarded (handle op request)); [|by apply Hguarded].
    destruct op; simpl; unfold_handlers; guarded_steps.
  - intros room_id ->. simpl.
    assert (Hro : readonly (ListMediaInRoom_on_GET request room_id)); [|by apply Hro].
    unfold_handlers; readonly_steps.
  - intros uid ->. simpl.
    assert (Hro : readonly (UserMediaRestServlet_on_GET request uid)); [|by apply Hro].
    unfold_handlers; readonly_steps.
Qed.

(** ** Which store calls a servlet can make *)

(** Whatever the request and whatever the outcome, the store calls a handler
    adds to the log are of the kinds its source contains: the six quarantine
    and protection handlers only change flags and never list, look up or
    delete; the room listing only lists; the purge and the delete by date
    and size only delete; the delete by id looks up and deletes; the user
    listing looks up and lists; the user deletion never changes a flag. *)
Theorem handler_call_footprint (op : Operation) (request : SynapseRequest) (w : World) :
  ∃ cs, calls (handle op request w).2 = calls w ++ cs
        ∧ Forall (λ c, may_call op (call_kind c) = true) cs.
Proof.
  assert (Hlogs : logs (λ c, may_call op (call_kind c) = true) (handle op request));
    [|by apply Hlogs].
  destruct op; simpl; unfold_handlers; logs_steps.
Qed.

(** ** The answers *)

(** Every answer of every handler has status 200, and its body has exactly
    the keys of that servlet's [return]: [num_quarantined] for the room and
    user quarantine, none for the by-id quarantine, unquarantine, protect and
    unprotect, [local] and [remote] for the room listing, [deleted_media] and
    [total] for the three local deletions, [media] and [total] with or
    without [next_token] for the user listing. *)
Theorem answer_status_and_keys (op : Operation) (request : SynapseRequest)
    (w w' : World) (resp : Z * JsonDict) :
  handle op request w = (Ok resp, w') →
  resp.1 = 200
  ∧ ∀ keys, response_keys op = Some keys → resp.2.*1 ∈ keys.
Proof.
  intros Hrun.
  assert (Hans : answers (λ r : Z * JsonDict,
                    r.1 = 200 ∧ ∀ keys, response_keys op = Some keys → r.2.*1 ∈ keys)
                   (handle op request)); [|by eapply Hans].
  clear Hrun.
  destruct op; simpl; unfold_handlers; answers_steps;
    apply answers_return; (split; [done|]); intros keys [= <-]; simpl;
    set_solver.
Qed.

(** ** The purge of the remote cache, case by case *)

(** For an administrator whose [before_ts] parses: a negative value is
    refused with the "positive integer" message; a value from 0 up to
    29999999999, zero included, is refused with the "year 1970" message; from
    30000000000 on the request is accepted, the media repository is called
    once, with that very [before_ts], and the handler answers 200.  So a
    request is answered exactly when [30000000000 ≤ before_ts]. *)
Theorem purge_threshold (request : SynapseRequest) (w : World) (before_ts : Z) :
  authorised request →
  parse_integer_required request "before_ts" = Ok before_ts →
  (before_ts < 0 →
     PurgeMediaCacheRestServlet_on_POST request w =
     (Raise (SynapseError 400 "Query parameter before_ts must be a positive integer."
               (Some INVALID_PARAM)), w))
  ∧ (0 ≤ before_ts < 30000000000 →
     PurgeMediaCacheRestServlet_on_POST request w =
     (Raise (SynapseError 400
               "Query parameter before_ts you provided is from the year 1970. Double check that you are providing a timestamp in milliseconds."
               (Some INVALID_PARAM)), w))
  ∧ (30000000000 ≤ before_ts →
     ∃ body w',
       PurgeMediaCacheRestServlet_on_POST request w = (Ok (200, body), w')
       ∧ calls w' = calls w ++ [delete_old_remote_media_call before_ts])
  ∧ ((∃ resp w', PurgeMediaCacheRestServlet_on_POST request w = (Ok resp, w'))
     ↔ 30000000000 ≤ before_ts).
Proof.
  intros (rq & Hreq & Hadmin) Hts.
  assert (Hneg : before_ts < 0 →
     PurgeMediaCacheRestServlet_on_POST request w =
     (Raise (SynapseError 400 "Query parameter before_ts must be a positive integer."
               (Some INVALID_PARAM)), w)).
  { intros Hlt. autounfold with servlets monad.
    rewrite Hreq; simpl. rewrite Hadmin; simpl. rewrite Hts; simpl.
    apply Z.ltb_lt in Hlt. by rewrite Hlt. }
  assert (Hsmall : 0 ≤ before_ts < 30000000000 →
     PurgeMediaCacheRestServlet_on_POST request w =
     (Raise (SynapseError 400
               "Query parameter before_ts you provided is from the year 1970. Double check that you are providing a timestamp in milliseconds."
               (Some INVALID_PARAM)), w)).
  { intros [Hge Hlt]. autounfold with servlets monad.
    rewrite Hreq; simpl. rewrite Hadmin; simpl. rewrite Hts; simpl.
    apply Z.ltb_ge in Hge. apply Z.ltb_lt in Hlt. by rewrite Hge, Hlt. }
  assert (Hok : 30000000000 ≤ before_ts →
     ∃ body w',
       PurgeMediaCacheRestServlet_on_POST request w = (Ok (200, body), w')
       ∧ calls w' = calls w ++ [delete_old_remote_media_call before_ts]).
  { intros Hge. autounfold with servlets store monad.
    rewrite Hreq; simpl. rewrite Hadmin; simpl. rewrite Hts; simpl.
    assert ((before_ts <? 0) = false) as -> by (apply Z.ltb_ge; clear Hts; lia).
    assert ((before_ts <? 30000000000) = false) as -> by (by apply Z.ltb_ge).
    simpl.
    destruct (delete_each _ _ _) as [d m']. simpl. by eexists _, _. }
  split; [exact Hneg|]. split; [exact Hsmall|]. split; [exact Hok|].
  split.
  - intros (resp & w' & Hrun).
    destruct (Z.lt_ge_cases before_ts 30000000000) as [Hlt|Hge]; [|done].
    destruct (Z.lt_ge_cases before_ts 0) as [Hlt0|Hge0].
    + rewrite Hneg in Hrun by done. discriminate.
    + rewrite Hsmall in Hrun by done. discriminate.
  - intros Hge. destruct (Hok Hge) as (body & w' & Hrun & _). by eexists _, _.
Qed.

(** ** The delete by date and size, case by case *)

(** For an administrator whose three parameters parse and pass the checks
    and who names this server: the media repository is called once, with the
    parsed [before_ts], [size_gt] and [keep_profiles], and the handler
    answers 200.  A request without [size_gt] asks for sizes above 0, and a
    request without [keep_profiles] keeps the profile media. *)
Theorem delete_by_date_size_accepted (request : SynapseRequest) (server_name : string)
    (w : World) (before_ts size_gt : Z) (keep_profiles : bool) :
  authorised request →
  parse_integer_required request "before_ts" = Ok before_ts →
  parse_integer request "size_gt" 0 = Ok size_gt →
  parse_boolean request "keep_profiles" true = Ok keep_profiles →
  30000000000 ≤ before_ts → 0 ≤ size_gt → hostname hs = server_name →
  (∃ body w',
     DeleteMediaByDateSize_on_POST request server_name w = (Ok (200, body), w')
     ∧ calls w' = calls w ++
         [delete_old_local_media_call before_ts size_gt keep_profiles])
  ∧ (args request !! "size_gt" = None → size_gt = 0)
  ∧ (args request !! "keep_profiles" = None → keep_profiles = true).
Proof.
  intros (rq & Hreq & Hadmin) Hts Hsz Hkp Hge Hsize Hname.
  split; [|split].
  - autounfold with servlets store monad.
    rewrite Hreq; simpl. rewrite Hadmin; simpl.
    rewrite Hts; simpl. rewrite Hsz; simpl. rewrite Hkp; simpl.
    assert ((before_ts <? 0) = false) as -> by (apply Z.ltb_ge; clear Hts Hsz Hkp; lia).
    assert ((before_ts <? 30000000000) = false) as -> by (by apply Z.ltb_ge).
    assert ((size_gt <? 0) = false) as -> by (by apply Z.ltb_ge).
    simpl. apply String.eqb_eq in Hname. rewrite Hname. simpl.
    destruct (delete_each _ _ _) as [d m']. simpl. by eexists _, _.
  - intros Hnone. unfold parse_integer in Hsz. rewrite Hnone in Hsz. by simplify_eq.
  - intros Hnone. unfold parse_boolean in Hkp. rewrite Hnone in Hkp. by simplify_eq.
Qed.

(** For an administrator whose three parameters parse, the checks are made
    in the order [before_ts], [size_gt], [server_name] and the first that
    fails decides the error; none of them reaches the media repository.  The
    server-name refusal is the only one without an error code, and a foreign
    server name is only reported once both numbers are in range. *)
Theorem delete_by_date_size_rejections (request : SynapseRequest) (server_name : string)
    (w : World) (before_ts size_gt : Z) (keep_profiles : bool) :
  authorised request →
  parse_integer_required request "before_ts" = Ok before_ts →
  parse_integer request "size_gt" 0 = Ok size_gt →
  parse_boolean request "keep_profiles" true = Ok keep_profiles →
  (before_ts < 0 →
     DeleteMediaByDateSize_on_POST request server_name w =
     (Raise (SynapseError 400 "Query parameter before_ts must be a positive integer."
               (Some INVALID_PARAM)), w))
  ∧ (0 ≤ before_ts < 30000000000 →
     DeleteMediaByDateSize_on_POST request server_name w =
     (Raise (SynapseError 400
               "Query parameter before_ts you provided is from the year 1970. Double check that you are providing a timestamp in milliseconds."
               (Some INVALID_PARAM)), w))
  ∧ (30000000000 ≤ before_ts → size_gt < 0 →
     DeleteMediaByDateSize_on_POST request server_name w =
     (Raise (SynapseError 400
               "Query parameter size_gt must be a string representing a positive integer."
               (Some INVALID_PARAM)), w))
  ∧ (30000000000 ≤ before_ts → 0 ≤ size_gt → hostname hs ≠ server_name →
     DeleteMediaByDateSize_on_POST request server_name w =
     (Raise (SynapseError 400 "Can only delete local media" None), w)).
Proof.
  intros (rq & Hreq & Hadmin) Hts Hsz Hkp.
  assert (Hrun : DeleteMediaByDateSize_on_POST request server_name w =
    (if before_ts <? 0 then
       (Raise (SynapseError 400 "Query parameter before_ts must be a positive integer."
                 (Some INVALID_PARAM)), w)
     else if before_ts <? 30000000000 then
       (Raise (SynapseError 400
                 "Query parameter before_ts you provided is from the year 1970. Double check that you are providing a timestamp in milliseconds."
                 (Some INVALID_PARAM)), w)
     else if size_gt <? 0 then
       (Raise (SynapseError 400
                 "Query parameter size_gt must be a string representing a positive integer."
                 (Some INVALID_PARAM)), w)
     else if negb (String.eqb (hostname hs) server_name) then
       (Raise (SynapseError 400 "Can only delete local media" None), w)
     else DeleteMediaByDateSize_on_POST request server_name w)).
  { autounfold with servlets monad.
    rewrite Hreq; simpl. rewrite Hadmin; simpl.
    rewrite Hts; simpl. rewrite Hsz; simpl. rewrite Hkp; simpl.
    destruct (before_ts <? 0); simpl; [done|].
    destruct (before_ts <? 30000000000); simpl; [done|].
    destruct (size_gt <? 0); simpl; [done|].
    by destruct (negb (String.eqb (hostname hs) server_name)). }
  clear Hts Hsz Hkp.
  split; [|split; [|split]].
  - intros Hlt. rewrite Hrun. apply Z.ltb_lt in Hlt. by rewrite Hlt.
  - intros [Hge Hlt]. rewrite Hrun.
    apply Z.ltb_ge in Hge. apply Z.ltb_lt in Hlt. by rewrite Hge, Hlt.
  - intros Hge Hlt. rewrite Hrun.
    assert ((before_ts <? 0) = false) as -> by (apply Z.ltb_ge; lia).
    assert ((before_ts <? 30000000000) = false) as -> by (by apply Z.ltb_ge).
    apply Z.ltb_lt in Hlt. by rewrite Hlt.
  - intros Hge Hsize Hname. rewrite Hrun.
    assert ((before_ts <? 0) = false) as -> by (apply Z.ltb_ge; lia).
    assert ((before_ts <? 30000000000) = false) as -> by (by apply Z.ltb_ge).
    assert ((size_gt <? 0) = false) as -> by (by apply Z.ltb_ge).
    apply String.eqb_neq in Hname. by rewrite Hname.
Qed.

(** The purge handlers parse every parameter before they check any: for an
    administrator, an error of the parser is raised as it is and nothing is
    called, and a [size_gt] or [keep_profiles] that does not parse is
    reported whatever [before_ts] is, even one that is out of range. *)
Theorem purge_parse_errors_first (request : SynapseRequest) (w : World) :
  authorised request →
  (∀ e, parse_integer_required request "before_ts" = Raise e →
        PurgeMediaCacheRestServlet_on_POST request w = (Raise e, w)
        ∧ ∀ server_name,
            DeleteMediaByDateSize_on_POST request server_name w = (Raise e, w))
  ∧ (∀ before_ts e server_name,
       parse_integer_required request "before_ts" = Ok before_ts →
       parse_integer request "size_gt" 0 = Raise e →
       DeleteMediaByDateSize_on_POST request server_name w = (Raise e, w))
  ∧ (∀ before_ts size_gt e server_name,
       parse_integer_required request "before_ts" = Ok before_ts →
       parse_integer request "size_gt" 0 = Ok size_gt →
       parse_boolean request "keep_profiles" true = Raise e →
       DeleteMediaByDateSize_on_POST request server_name w = (Raise e, w)).
Proof.
  intros (rq & Hreq & Hadmin). split; [|split].
  - intros e Hts. split; [|intros server_name];
      autounfold with servlets monad;
      rewrite Hreq; simpl; rewrite Hadmin; simpl; by rewrite Hts.
  - intros before_ts e server_name Hts Hsz. autounfold with servlets monad.
    rewrite Hreq; simpl. rewrite Hadmin; simpl. rewrite Hts; simpl. by rewrite Hsz.
  - intros before_ts size_gt e server_name Hts Hsz Hkp.
    autounfold with servlets monad.
    rewrite Hreq; simpl. rewrite Hadmin; simpl.
    rewrite Hts; simpl. rewrite Hsz; simpl. by rewrite Hkp.
Qed.

(** ** Who a quarantine is attributed to *)

(** For an administrator, each of the six quarantine and protection handlers
    makes exactly one store call, whatever that call answers: the three
    quarantines pass the requester's own identifier as the quarantining
    party, the unquarantine passes none, protect passes [True] and unprotect
    [False]. *)
Theorem governance_single_call (request : SynapseRequest) (w : World) (rq : Requester) :
  get_user_by_req hs request = Ok rq →
  is_server_admin hs (user rq) = true →
  (∀ room_id,
     calls (QuarantineMediaInRoom_on_POST request room_id w).2
     = calls w ++ [quarantine_media_ids_in_room_call room_id (user rq)])
  ∧ (∀ uid,
     calls (QuarantineMediaByUser_on_POST request uid w).2
     = calls w ++ [quarantine_media_ids_by_user_call uid (user rq)])
  ∧ (∀ server id,
     calls (QuarantineMediaByID_on_POST request server id w).2
     = calls w ++ [quarantine_media_by_id_call server id (Some (user rq))])
  ∧ (∀ server id,
     calls (UnquarantineMediaByID_on_POST request server id w).2
     = calls w ++ [quarantine_media_by_id_call server id None])
  ∧ (∀ id,
     calls (ProtectMediaByID_on_POST request id w).2
     = calls w ++ [mark_local_media_as_safe_call id true])
  ∧ (∀ id,
     calls (UnprotectMediaByID_on_POST request id w).2
     = calls w ++ [mark_local_media_as_safe_call id false]).
Proof.
  intros Hreq Hadmin.
  repeat split; intros; autounfold with servlets store monad;
    rewrite Hreq; simpl; rewrite Hadmin; simpl; try done.
  - by destruct (rooms w !! room_id).
  - by destruct (media w !! (server, id)).
Qed.

(** ** The sort parameters of the user-media handlers *)

Lemma not_allowed_order_by v :
  (∀ o, v ≠ value o) →
  bool_decide (v ∈ [value MEDIA_ID; value UPLOAD_NAME; value CREATED_TS;
                    value LAST_ACCESS_TS; value MEDIA_LENGTH; value MEDIA_TYPE;
                    value QUARANTINED_BY; value SAFE_FROM_QUARANTINE]) = false.
Proof.
  intros Hv. apply bool_decide_eq_false_2. intros Hin.
  repeat (apply elem_of_cons in Hin as [Hin|Hin]; [by eapply Hv|]).
  by apply elem_of_nil in Hin.
Qed.

Lemma allowed_order_by o :
  bool_decide (value o ∈ [value MEDIA_ID; value UPLOAD_NAME; value CREATED_TS;
                          value LAST_ACCESS_TS; value MEDIA_LENGTH; value MEDIA_TYPE;
                          value QUARANTINED_BY; value SAFE_FROM_QUARANTINE]) = true.
Proof. by destruct o. Qed.

Lemma sort_of_bad_order_by request v :
  args request !! "order_by" = Some v → (∀ o, v ≠ value o) →
  ∃ e, sort_of request = Raise e.
Proof.
  intros Ho Hv. unfold sort_of, parse_string.
  rewrite (has_arg_Some _ _ _ Ho), Ho. simpl.
  rewrite not_allowed_order_by by done. by eexists.
Qed.

Lemma sort_of_bad_dir request d :
  args request !! "dir" = Some d → d ≠ "f" → d ≠ "b" →
  ∃ e, sort_of request = Raise e.
Proof.
  intros Hd Hf Hb. unfold sort_of, parse_string.
  rewrite (has_arg_Some _ _ _ Hd), Hd, andb_false_r.
  destruct (args request !! "order_by") as [v|]; simpl.
  - destruct (bool_decide (v ∈ _)); simpl; [|by eexists].
    rewrite bool_decide_eq_false_2; [by eexists|].
    intros Hin. apply elem_of_cons in Hin as [->|Hin]; [done|].
    apply elem_of_cons in Hin as [->|Hin]; [done|]. by apply elem_of_nil in Hin.
  - rewrite bool_decide_eq_false_2; [by eexists|].
    intros Hin. apply elem_of_cons in Hin as [->|Hin]; [done|].
    apply elem_of_cons in Hin as [->|Hin]; [done|]. by apply elem_of_nil in Hin.
Qed.

Lemma sort_of_good request o d :
  args request !! "order_by" = Some (value o) →
  (args request !! "dir" = None ∧ d = "f")
  ∨ (args request !! "dir" = Some d ∧ (d = "f" ∨ d = "b")) →
  sort_of request = Ok (value o, d).
Proof.
  intros Ho Hd. unfold sort_of, parse_string.
  rewrite (has_arg_Some _ _ _ Ho), Ho. cbn [negb andb].
  rewrite allowed_order_by.
  destruct Hd as [[-> ->]|[-> [-> | ->]]]; done.
Qed.

Lemma user_media_answers_with (h : SynapseRequest → string → M (Z * JsonDict))
    request uid w start limit order_by direction :
  h = UserMediaRestServlet_on_GET ∨ h = UserMediaRestServlet_on_DELETE →
  user_media_checks request uid w =
    (Ok (start, limit, (order_by, direction)), with_call (get_user_by_id_call uid) w) →
  ∃ resp w' rest,
    h request uid w = (Ok resp, w')
    ∧ calls w' = calls w ++
        get_user_by_id_call uid
        :: get_local_media_by_user_paginate_call start limit uid order_by direction
        :: rest.
Proof.
  intros [-> | ->] Hc.
  - rewrite on_GET_checks, Hc. eexists _, _, []. split; [done|].
    simpl. by rewrite <- app_assoc.
  - rewrite on_DELETE_checks, Hc. eexists _, _, [_]. split; [done|].
    simpl. by rewrite <- !app_assoc.
Qed.

(** For the GET and the DELETE user-media handler alike, once the caller,
    the user and the pagination have passed: an [order_by] that is none of
    the eight sort keys, or a [dir] that is neither [f] nor [b], makes the
    request fail after the user lookup, with nothing listed and nothing
    deleted; each of the eight sort keys is accepted, with either direction
    or none, and is passed to the listing as given. *)
Theorem sort_parameters_validated (h : SynapseRequest → string → M (Z * JsonDict))
    (request : SynapseRequest) (uid : string) (w : World) (start limit : Z) :
  h = UserMediaRestServlet_on_GET ∨ h = UserMediaRestServlet_on_DELETE →
  authorised request → local_user uid → uid ∈ users w →
  parse_integer request "from" 0 = Ok start →
  parse_integer request "limit" 100 = Ok limit →
  0 ≤ start → 0 ≤ limit →
  (∀ v, args request !! "order_by" = Some v → (∀ o, v ≠ value o) →
     ∃ e, h request uid w = (Raise e, with_call (get_user_by_id_call uid) w))
  ∧ (∀ d, args request !! "dir" = Some d → d ≠ "f" → d ≠ "b" →
     ∃ e, h request uid w = (Raise e, with_call (get_user_by_id_call uid) w))
  ∧ (∀ o d, args request !! "order_by" = Some (value o) →
       (args request !! "dir" = None ∧ d = "f")
       ∨ (args request !! "dir" = Some d ∧ (d = "f" ∨ d = "b")) →
       ∃ resp w' rest,
         h request uid w = (Ok resp, w')
         ∧ calls w' = calls w ++
             get_user_by_id_call uid
             :: get_local_media_by_user_paginate_call start limit uid (value o) d
             :: rest).
Proof.
  intros Hh Hauth Hlocal Hin Hfrom Hlimit Hs Hl.
  pose proof (user_media_checks_run request uid w Hauth Hlocal Hin) as Hrun.
  rewrite Hfrom, Hlimit in Hrun.
  apply Z.ltb_ge in Hs, Hl. rewrite Hs, Hl in Hrun.
  split; [|split].
  - intros v Ho Hv. destruct (sort_of_bad_order_by _ _ Ho Hv) as (e & He).
    rewrite He in Hrun. exists e. by apply user_media_fails_as_checks.
  - intros d Hd Hf Hb. destruct (sort_of_bad_dir _ _ Hd Hf Hb) as (e & He).
    rewrite He in Hrun. exists e. by apply user_media_fails_as_checks.
  - intros o d Ho Hd. rewrite (sort_of_good _ _ _ Ho Hd) in Hrun.
    by apply user_media_answers_with.
Qed.

(** A user-media request without any query parameter, sent by an
    administrator for a known local user, is always answered, and it lists
    from offset 0, at most 100 rows, by [created_ts] backward. *)
Theorem user_media_defaults (h : SynapseRequest → string → M (Z * JsonDict))
    (request : SynapseRequest) (uid : string) (w : World) :
  h = UserMediaRestServlet_on_GET ∨ h = UserMediaRestServlet_on_DELETE →
  authorised request → local_user uid → uid ∈ users w →
  args request !! "from" = None → args request !! "limit" = None →
  args request !! "order_by" = None → args request !! "dir" = None →
  ∃ resp w' rest,
    h request uid w = (Ok resp, w')
    ∧ calls w' = calls w ++
        get_user_by_id_call uid
        :: get_local_media_by_user_paginate_call 0 100 uid "created_ts" "b"
        :: rest.
Proof.
  intros Hh Hauth Hlocal Hin Hfrom Hlimit Ho Hd.
  apply user_media_answers_with; [done|].
  rewrite (user_media_checks_run request uid w Hauth Hlocal Hin).
  unfold parse_integer, sort_of. rewrite Hfrom, Hlimit.
  by rewrite (has_arg_None _ _ Ho), (has_arg_None _ _ Hd).
Qed.

(** ** DELETE removes what GET shows *)

(** For one request on one world: whenever the GET handler fails, the
    DELETE handler fails with the same error and leaves the same world, so
    it has deleted nothing; whenever DELETE answers, GET answers too; and
    when both answer they made the same listing call and the identifiers
    DELETE hands to the deletion are those of the rows in the [media] of
    GET's answer, in the same order. *)
Theorem delete_matches_listing (request : SynapseRequest) (uid : string) (w : World) :
  (∀ e w', UserMediaRestServlet_on_GET request uid w = (Raise e, w') →
           UserMediaRestServlet_on_DELETE request uid w = (Raise e, w'))
  ∧ ((∃ resp w', UserMediaRestServlet_on_DELETE request uid w = (Ok resp, w')) →
     ∃ resp w', UserMediaRestServlet_on_GET request uid w = (Ok resp, w'))
  ∧ (∀ respG wG respD wD,
       UserMediaRestServlet_on_GET request uid w = (Ok respG, wG) →
       UserMediaRestServlet_on_DELETE request uid w = (Ok respD, wD) →
       ∃ page call,
         jget "media" respG.2 = Some (JList (row_json <$> page))
         ∧ calls wG = calls w ++ [get_user_by_id_call uid; call]
         ∧ calls wD = calls w ++
             [get_user_by_id_call uid; call;
              delete_local_media_ids_call (media_id <$> page)]).
Proof.
  rewrite on_GET_checks, on_DELETE_checks.
  destruct (user_media_checks request uid w)
    as [[[[start limit] [order_by direction]]|e] w1] eqn:Hc.
  - apply user_media_checks_Ok in Hc as (_ & _ & _ & _ & _ & _ & _ & _ & ->).
    split; [|split].
    + intros e w'. discriminate.
    + intros _. by eexists _, _.
    + intros respG wG respD wD HG HD.
      injection HG as <- <-. injection HD as <- <-.
      eexists _, _. split; [|split].
      * unfold listing_body. simpl. by case_match.
      * simpl. by rewrite <- app_assoc.
      * simpl. by rewrite <- !app_assoc.
  - split; [|split].
    + by intros e' w'.
    + intros (resp & w' & Hrun). discriminate.
    + intros respG wG respD wD HG. discriminate.
Qed.

(** ** Where the pagination token points *)

Lemma listByUser_full_page m start limit u order_by direction :
  0 ≤ start → 0 ≤ limit →
  start + limit < (listByUser m start limit u order_by direction).2 →
  Z.of_nat (length (listByUser m start limit u order_by direction).1) = limit.
Proof.
  unfold listByUser. simpl.
  generalize (merge_sort (λ a b, Is_true (row_leb order_by direction a b))
                (map_to_list (media_of_user u m)).*2).
  intros rows Hs Hl Hlt. rewrite length_take, length_drop. lia.
Qed.

(** Whenever the GET user-media handler answers with a [next_token], the
    token is [from + limit] and lies below the number of the user's media:
    the page was full.  With [limit = 0] the token is [from] itself, so a
    client that follows it asks for the same page again. *)
Theorem next_token_is_from_plus_limit (request : SynapseRequest) (uid : string)
    (w w' : World) (resp : Z * JsonDict) (v : Json) :
  UserMediaRestServlet_on_GET request uid w = (Ok resp, w') →
  jget "next_token" resp.2 = Some v →
  ∃ start limit,
    parse_integer request "from" 0 = Ok start
    ∧ parse_integer request "limit" 100 = Ok limit
    ∧ 0 ≤ start ∧ 0 ≤ limit
    ∧ v = JInt (start + limit)
    ∧ start + limit < Z.of_nat (size (media_of_user uid (media w)))
    ∧ (limit = 0 → v = JInt start).
Proof.
  rewrite on_GET_checks.
  destruct (user_media_checks request uid w)
    as [[[[start limit] [order_by direction]]|e] w1] eqn:Hc; [|done].
  intros Hrun. injection Hrun as <- <-.
  apply user_media_checks_Ok in Hc
    as (_ & _ & _ & Hfrom & Hlimit & Hs & Hl & _ & ->).
  cbn [media with_call snd]. unfold listing_body.
  pose proof (listByUser_full_page (media w) start limit uid order_by direction Hs Hl)
    as Hfull.
  pose proof (listByUser_total (media w) start limit uid order_by direction) as Htotal.
  revert Hfull Htotal.
  generalize (listByUser (media w) start limit uid order_by direction).
  intros [page total] Hfull Htotal. cbn [fst snd] in *.
  destruct (start + limit <? total) eqn:Hlt; simpl; [|done].
  apply Z.ltb_lt in Hlt. intros [= <-].
  exists start, limit. rewrite Hfull by done.
  repeat split; try done.
  - by rewrite <- Htotal.
  - intros ->. by rewrite Z.add_0_r.
Qed.

(** ** Deleting the same item twice *)

(** For an administrator naming this server and an existing local item whose
    file the byte-storage adapter removes: the first delete answers, and the
    same request sent again fails with [NotFoundError] at the existence
    check, leaving the media table as the first delete left it. *)
Theorem delete_by_id_twice (request : SynapseRequest) (server_name media_id : string)
    (w : World) :
  authorised request →
  hostname hs = server_name →
  is_Some (media w !! local_key media_id) →
  deleteLocal hs media_id = true →
  ∃ resp w1 w2,
    DeleteMediaByID_on_DELETE request server_name media_id w = (Ok resp, w1)
    ∧ DeleteMediaByID_on_DELETE request server_name media_id w1
      = (Raise (NotFoundError "Unknown media"), w2)
    ∧ media w2 = media w1.
Proof.
  intros (rq & Hreq & Hadmin) Hname [r Hr] Hdel.
  apply String.eqb_eq in Hname.
  assert (Hrun1 : DeleteMediaByID_on_DELETE request server_name media_id w =
    (Ok (200, [("deleted_media", JList [JStr media_id]); ("total", JInt 1)]),
     with_media (delete (local_key media_id) (media w))
       (with_call (delete_local_media_ids_call [media_id])
          (with_call (get_local_media_call media_id) w)))).
  { autounfold with servlets store monad.
    rewrite Hreq; simpl. rewrite Hadmin; simpl. rewrite Hname; simpl.
    rewrite Hr; simpl. by rewrite Hdel, Hr. }
  eexists _, _, _. split; [exact Hrun1|].
  autounfold with servlets store monad.
  rewrite Hreq; simpl. rewrite Hadmin; simpl. rewrite Hname; simpl.
  by rewrite lookup_delete_eq.
Qed.

(** ** The empty page *)



End Servlets.

(** * The concrete homeserver at work *)

Example dec_int_1000 : dec_int "1000" = Some 1000.
Proof. reflexivity. Qed.

Example dec_int_negative : dec_int "-5" = Some (-5).
Proof. reflexivity. Qed.

Example dec_int_malformed : dec_int "12a" = None.
Proof. reflexivity. Qed.

Example UserID_from_string_alice :
  UserID_from_string "@alice:example.org"
  = Ok {| localpart := "alice"; domain := "example.org" |}.
Proof. reflexivity. Qed.

Example listByUser_default_newest_first :
  media_id <$> (listByUser ex_hs (media ex_world) 0 100 "@alice:example.org"
                  "created_ts" "b").1
  = ["D"; "B"; "A"].
Proof. vm_compute. reflexivity. Qed.

Example listByUser_forward_page :
  (media_id <$> (listByUser ex_hs (media ex_world) 1 1 "@alice:example.org"
                   "created_ts" "f").1,
   (listByUser ex_hs (media ex_world) 1 1 "@alice:example.org" "created_ts" "f").2)
  = (["B"], 3).
Proof. vm_compute. reflexivity. Qed.

Example purge_accepts_milliseconds :
  (PurgeMediaCacheRestServlet_on_POST ex_hs dec_int
     (ex_admin_request {["before_ts" := "1700000000000"]}) ex_world).1
  = Ok (200, [("deleted_media", JList [JStr "C"]); ("total", JInt 1)]).
Proof. vm_compute. reflexivity. Qed.

Example delete_by_date_size_example :
  (DeleteMediaByDateSize_on_POST ex_hs dec_int
     (ex_admin_request {["before_ts" := "1600000000002"; "size_gt" := "1000"]})
     "example.org" ex_world).1
  = Ok (200, [("deleted_media", JList [JStr "A"]); ("total", JInt 1)]).
Proof. vm_compute. reflexivity. Qed.

Example explicit_default_column_is_forward :
  calls (UserMediaRestServlet_on_GET ex_hs dec_int
           (ex_admin_request {["order_by" := "created_ts"]})
           "@alice:example.org" ex_world).2
  = [get_user_by_id_call "@alice:example.org";
     get_local_media_by_user_paginate_call 0 100 "@alice:example.org" "created_ts" "f"].
Proof. vm_compute. reflexivity. Qed.

Example only_dir_keeps_default_column :
  calls (UserMediaRestServlet_on_DELETE ex_hs dec_int
           (ex_admin_request {["dir" := "b"; "limit" := "0"]})
           "@alice:example.org" ex_world).2
  = [get_user_by_id_call "@alice:example.org";
     get_local_media_by_user_paginate_call 0 0 "@alice:example.org" "created_ts" "b";
     delete_local_media_ids_call []].
Proof. vm_compute. reflexivity. Qed.

Lemma ex_admin_authorised a : authorised ex_hs (ex_admin_request a).
Proof. by exists {| user := "@admin:example.org" |}. Qed.

Lemma ex_alice_local : local_user ex_hs "@alice:example.org".
Proof. by exists {| localpart := "alice"; domain := "example.org" |}. Qed.

Lemma ex_world_safe : safe_invariant (media ex_world).
Proof.
  apply (bool_decide_unpack
           (map_Forall (λ _ r, safe_from_quarantine r = true → quarantined_by r = None)
              (media ex_world))).
  vm_compute. exact I.
Qed.

(** ** The theorems on the concrete server *)

(** C1 at [ex_world]: the invariant holds there, still holds after
    protecting the quarantined [D], and [D] ends protected and clear. *)
Lemma C1_witness :
  safe_invariant (media ex_world)
  ∧ safe_invariant
      (media (handle ex_hs dec_int (Protect "D") (ex_admin_request ∅) ex_world).2)
  ∧ ∃ w' r',
      handle ex_hs dec_int (Protect "D") (ex_admin_request ∅) ex_world
      = (Ok (200, []), w')
      ∧ media w' !! ("example.org", "D") = Some r'
      ∧ safe_from_quarantine r' = true
      ∧ quarantined_by r' = None.
Proof.
  destruct (C1_safe_implies_not_quarantined ex_hs dec_int ex_world ex_world_safe)
    as (Hstep & _ & Hprotect).
  split; [exact ex_world_safe|]. split; [apply Hstep|].
  apply (Hprotect (ex_admin_request ∅) "D" ex_D "@admin:example.org").
  - apply ex_admin_authorised.
  - vm_compute. reflexivity.
  - reflexivity.
Defined.



(** C3 as the specification words it fails on the code: the administrator's
    delete of media of another server is rejected with an error that is not an
    [InvalidParameter] one (it carries no error code); and when the
    byte-storage adapter cannot remove the file of an existing local item,
    the answer is [{deleted_media: [], total: 1}] and the record stays. *)
Lemma C3_counterexample :
  (authorised ex_hs (ex_admin_request ∅)
   ∧ hostname ex_hs ≠ "remote.org"
   ∧ ∃ e, DeleteMediaByID_on_DELETE ex_hs (ex_admin_request ∅) "remote.org" "C" ex_world
          = (Raise e, ex_world)
          ∧ ¬ is_InvalidParameter e)
  ∧ (hostname ex_hs = "example.org"
     ∧ media ex_world !! ("example.org", "stuck") = Some ex_stuck
     ∧ ∃ w', DeleteMediaByID_on_DELETE ex_hs (ex_admin_request ∅)
               "example.org" "stuck" ex_world
             = (Ok (200, [("deleted_media", JList []); ("total", JInt 1)]), w')
             ∧ media w' !! ("example.org", "stuck") = Some ex_stuck).
Proof.
  split.
  - split; [apply ex_admin_authorised|]. split; [discriminate|].
    eexists. split; [vm_compute; reflexivity|]. intros [].
  - split; [reflexivity|]. split; [vm_compute; reflexivity|].
    eexists. split; [vm_compute; reflexivity|]. vm_compute. reflexivity.
Qed.

(** C3, amended, at the three kinds of request. *)
Lemma C3_witness :
  DeleteMediaByID_on_DELETE ex_hs (ex_admin_request ∅) "remote.org" "C" ex_world
  = (Raise (SynapseError 400 "Can only delete local media" None), ex_world)
  ∧ (∃ w', DeleteMediaByID_on_DELETE ex_hs (ex_admin_request ∅)
             "example.org" "Z" ex_world
           = (Raise (NotFoundError "Unknown media"), w')
           ∧ media w' = media ex_world
           ∧ calls w' = calls ex_world ++ [get_local_media_call "Z"])
  ∧ (∃ w', DeleteMediaByID_on_DELETE ex_hs (ex_admin_request ∅)
             "example.org" "A" ex_world
           = (Ok (200, [("deleted_media", JList [JStr "A"]); ("total", JInt 1)]), w')
           ∧ media w' = delete ("example.org", "A") (media ex_world)).
Proof.
  split; [|split].
  - apply (C3_delete_by_id ex_hs (ex_admin_request ∅) "remote.org" "C" ex_world
             (ex_admin_authorised ∅)).
    discriminate.
  - apply (C3_delete_by_id ex_hs (ex_admin_request ∅) "example.org" "Z" ex_world
             (ex_admin_authorised ∅)).
    + reflexivity.
    + vm_compute. reflexivity.
  - apply (C3_delete_by_id ex_hs (ex_admin_request ∅) "example.org" "A" ex_world
             (ex_admin_authorised ∅)).
    + reflexivity.
    + exists ex_A. vm_compute. reflexivity.
    + reflexivity.
Defined.

Lemma ex_GET_run :
  UserMediaRestServlet_on_GET ex_hs dec_int ex_list_request "@alice:example.org" ex_world
  = (Ok ex_GET_resp, ex_GET_world).
Proof. vm_compute. reflexivity. Qed.

Lemma ex_DELETE_run :
  UserMediaRestServlet_on_DELETE ex_hs dec_int ex_list_request "@alice:example.org" ex_world
  = (Ok ex_DELETE_resp, ex_DELETE_world).
Proof. vm_compute. reflexivity. Qed.

Example ex_GET_next_token :
  (jget "total" ex_GET_resp.2, jget "next_token" ex_GET_resp.2)
  = (Some (JInt 3), Some (JInt 2)).
Proof. reflexivity. Qed.

Example ex_GET_last_page_has_no_token :
  jget "next_token"
    (match (UserMediaRestServlet_on_GET ex_hs dec_int
              (ex_admin_request {["from" := "2"; "limit" := "1"]})
              "@alice:example.org" ex_world).1 with
     | Ok r => r.2
     | Raise _ => []
     end)
  = None.
Proof. vm_compute. reflexivity. Qed.

Example ex_DELETE_leaves_the_rest :
  (ex_DELETE_resp,
   media_id <$> (listByUser ex_hs (media ex_DELETE_world) 0 100
                   "@alice:example.org" "created_ts" "f").1)
  = ((200, [("deleted_media", JList [JStr "D"; JStr "B"]); ("total", JInt 2)]),
     ["A"]).
Proof. vm_compute. reflexivity. Qed.

(** C4 at the first page of alice's media. *)
Lemma C4_witness :
  ∃ start limit order_by direction,
    parse_integer dec_int ex_list_request "from" 0 = Ok start
    ∧ parse_integer dec_int ex_list_request "limit" 100 = Ok limit
    ∧ calls ex_GET_world = calls ex_world ++
        [get_user_by_id_call "@alice:example.org";
         get_local_media_by_user_paginate_call start limit "@alice:example.org"
           order_by direction]
    ∧ let page := (listByUser ex_hs (media ex_world) start limit
                     "@alice:example.org" order_by direction).1 in
      let total := (listByUser ex_hs (media ex_world) start limit
                      "@alice:example.org" order_by direction).2 in
      jget "media" ex_GET_resp.2 = Some (JList (row_json <$> page))
      ∧ jget "total" ex_GET_resp.2 = Some (JInt total)
      ∧ (is_Some (jget "next_token" ex_GET_resp.2) ↔ start + limit < total)
      ∧ (∀ v, jget "next_token" ex_GET_resp.2 = Some v →
              v = JInt (start + Z.of_nat (length page))).
Proof.
  exact (C4_next_token ex_hs dec_int ex_list_request "@alice:example.org"
           ex_world ex_GET_world ex_GET_resp ex_GET_run).
Defined.


(** C6 at the room of [ex_world]: local [A], [B] ([B] protected), remote [C]. *)
Lemma C6_witness :
  ∃ w',
    QuarantineMediaInRoom_on_POST ex_hs (ex_admin_request ∅) "!room:example.org" ex_world
    = (Ok (200, [("num_quarantined", JInt 2)]), w')
    ∧ media w' !! ("example.org", "B") = Some ex_B.
Proof.
  destruct (C6_quarantine_room_count ex_hs dec_int (ex_admin_request ∅) "!room:example.org"
              ex_world {| user := "@admin:example.org" |}
              ({["A"; "B"]}, {[("remote.org", "C")]}))
    as (n & w' & Hrun & _ & _ & _ & _ & Hexample);
    [reflexivity|reflexivity|vm_compute; reflexivity|].
  destruct (Hexample "A" "B" "C" "remote.org" ex_A ex_B ex_C)
    as (-> & HB & _);
    [reflexivity|discriminate|vm_compute; reflexivity|vm_compute; reflexivity
    |vm_compute; reflexivity|reflexivity|reflexivity|reflexivity|reflexivity
    |reflexivity|reflexivity|].
  exists w'. split; [exact Hrun|exact HB].
Defined.

(** C7 at the quarantined [D]. *)
Lemma C7_witness :
  ∃ w1 w2,
    UnquarantineMediaByID_on_POST ex_hs (ex_admin_request ∅) "example.org" "D" ex_world
    = (Ok (200, []), w1)
    ∧ UnquarantineMediaByID_on_POST ex_hs (ex_admin_request ∅) "example.org" "D" w1
      = (Ok (200, []), w2)
    ∧ media w2 = media w1.
Proof.
  destruct (C7_unquarantine_idempotent ex_hs (ex_admin_request ∅) "example.org" "D"
              ex_world (ex_admin_authorised ∅))
    as (w1 & w2 & Hrun1 & _ & _ & Hrun2 & Hsame & _).
  exists w1, w2. split; [exact Hrun1|]. split; [exact Hrun2|exact Hsame].
Defined.

(** C8 at alice, who is not an administrator, asking to delete [A]. *)
Lemma C8_witness :
  ¬ authorised ex_hs (ex_alice_request ∅)
  ∧ ∃ e, handle ex_hs dec_int (DeleteById "example.org" "A") (ex_alice_request ∅) ex_world
         = (Raise e, ex_world)
         ∧ is_Forbidden e.
Proof.
  assert (Hnot : ¬ authorised ex_hs (ex_alice_request ∅)).
  { intros (rq & Hreq & Hadmin). vm_compute in Hreq. injection Hreq as <-.
    vm_compute in Hadmin. discriminate. }
  split; [exact Hnot|].
  destruct (C8_non_admin_forbidden ex_hs dec_int (DeleteById "example.org" "A")
              (ex_alice_request ∅) ex_world Hnot) as (e & Hrun & Hkind).
  exists e. split; [exact Hrun|].
  apply (Hkind {| user := "@alice:example.org" |}). reflexivity.
Defined.

(** C9 at alice's three media and [limit = 2]. *)
Lemma C9_witness :
  ∃ start limit order_by direction,
    parse_integer dec_int ex_list_request "from" 0 = Ok start
    ∧ parse_integer dec_int ex_list_request "limit" 100 = Ok limit
    ∧ (args ex_list_request !! "limit" = None → limit = 100)
    ∧ let page := (listByUser ex_hs (media ex_world) start limit
                     "@alice:example.org" order_by direction).1 in
      calls ex_DELETE_world = calls ex_world ++
        [get_user_by_id_call "@alice:example.org";
         get_local_media_by_user_paginate_call start limit "@alice:example.org"
           order_by direction;
         delete_local_media_ids_call (media_id <$> page)]
      ∧ Z.of_nat (length page) ≤ limit
      ∧ (∀ k, k ∉ local_key ex_hs <$> (media_id <$> page) →
              media ex_DELETE_world !! k = media ex_world !! k)
      ∧ Z.of_nat (size (media_of_user ex_hs "@alice:example.org" (media ex_world)))
          - limit
        ≤ Z.of_nat (size (media_of_user ex_hs "@alice:example.org"
                            (media ex_DELETE_world)))
      ∧ (limit < Z.of_nat (size (media_of_user ex_hs "@alice:example.org"
                                   (media ex_world))) →
         ∃ k r, media_of_user ex_hs "@alice:example.org" (media ex_DELETE_world) !! k
                = Some r
                ∧ media ex_world !! k = Some r).
Proof.
  exact (C9_delete_one_page ex_hs dec_int ex_list_request "@alice:example.org"
           ex_world ex_DELETE_world ex_DELETE_resp ex_DELETE_run).
Defined.

(** C10 at a negative [limit], a foreign user and an unknown local user. *)
Lemma C10_witness :
  (∃ e, UserMediaRestServlet_on_DELETE ex_hs dec_int
          (ex_admin_request {["limit" := "-1"]}) "@alice:example.org" ex_world
        = (Raise e, with_call (get_user_by_id_call "@alice:example.org") ex_world)
        ∧ is_InvalidParameter e)
  ∧ (∃ msg errcode,
       UserMediaRestServlet_on_DELETE ex_hs dec_int (ex_admin_request ∅)
         "@alice:remote.org" ex_world
       = (Raise (SynapseError 400 msg errcode), ex_world))
  ∧ UserMediaRestServlet_on_DELETE ex_hs dec_int (ex_admin_request ∅)
      "@carol:example.org" ex_world
    = (Raise (NotFoundError "Unknown user"),
       with_call (get_user_by_id_call "@carol:example.org") ex_world).
Proof.
  split; [|split].
  - apply (C10_user_media_validation ex_hs dec_int
             (UserMediaRestServlet_on_DELETE ex_hs dec_int)
             (ex_admin_request {["limit" := "-1"]}) "@alice:example.org" ex_world
             (or_intror eq_refl)) with (start := 0) (limit := -1).
    + apply ex_admin_authorised.
    + apply ex_alice_local.
    + vm_compute. reflexivity.
    + vm_compute. reflexivity.
    + vm_compute. reflexivity.
    + right. lia.
  - apply (C10_user_media_validation ex_hs dec_int
             (UserMediaRestServlet_on_DELETE ex_hs dec_int)
             (ex_admin_request ∅) "@alice:remote.org" ex_world
             (or_intror eq_refl)).
    + apply ex_admin_authorised.
    + intros (u & Hu & Hmine). vm_compute in Hu. injection Hu as <-.
      vm_compute in Hmine. discriminate.
  - apply (C10_user_media_validation ex_hs dec_int
             (UserMediaRestServlet_on_DELETE ex_hs dec_int)
             (ex_admin_request ∅) "@carol:example.org" ex_world
             (or_intror eq_refl)).
    + apply ex_admin_authorised.
    + by exists {| localpart := "carol"; domain := "example.org" |}.
    + vm_compute. discriminate.
Defined.

(** * The further properties on the concrete server *)

(** A delete of media of another server fails at the handler's own check:
    nothing was called and nothing changed. *)
Lemma failed_request_has_no_effect_witness :
  handle ex_hs dec_int (DeleteById "remote.org" "C") (ex_admin_request ∅) ex_world
  = (Raise (SynapseError 400 "Can only delete local media" None), ex_world)
  ∧ servlet_error (SynapseError 400 "Can only delete local media" None)
  ∧ media ex_world = media ex_world
  ∧ ∃ cs, calls ex_world = calls ex_world ++ cs
          ∧ Forall (λ c, mutating c = false) cs.
Proof.
  assert (Hrun :
    handle ex_hs dec_int (DeleteById "remote.org" "C") (ex_admin_request ∅) ex_world
    = (Raise (SynapseError 400 "Can only delete local media" None), ex_world))
    by (vm_compute; reflexivity).
  split; [exact Hrun|]. split; [exact I|].
  exact (proj1 (failed_request_has_no_effect ex_hs dec_int
                  (DeleteById "remote.org" "C") (ex_admin_request ∅) ex_world)
           _ _ Hrun I).
Defined.

(** The listing of alice's first page: status 200, keys with [next_token]. *)
Lemma answer_status_and_keys_witness :
  ex_GET_resp.1 = 200
  ∧ ∀ keys, response_keys (ListUserMedia "@alice:example.org") = Some keys →
            ex_GET_resp.2.*1 ∈ keys.
Proof.
  exact (answer_status_and_keys ex_hs dec_int (ListUserMedia "@alice:example.org")
           ex_list_request ex_world ex_GET_world ex_GET_resp ex_GET_run).
Defined.

(** The purge at the threshold is accepted, one millisecond below it is not. *)
Lemma purge_threshold_witness :
  (∃ body w',
     PurgeMediaCacheRestServlet_on_POST ex_hs dec_int ex_threshold_request ex_world
     = (Ok (200, body), w')
     ∧ calls w' = calls ex_world ++ [delete_old_remote_media_call 30000000000])
  ∧ ¬ (∃ resp w',
         PurgeMediaCacheRestServlet_on_POST ex_hs dec_int ex_below_threshold_request
           ex_world
         = (Ok resp, w')).
Proof.
  split.
  - apply (purge_threshold ex_hs dec_int ex_threshold_request ex_world 30000000000
             (ex_admin_authorised _)); [vm_compute; reflexivity|lia].
  - intros Hrun.
    apply (purge_threshold ex_hs dec_int ex_below_threshold_request ex_world
             29999999999 (ex_admin_authorised _)) in Hrun;
      [lia|vm_compute; reflexivity].
Defined.

(** The delete by date and size with [before_ts] alone: sizes above 0,
    profile media kept. *)
Lemma delete_by_date_size_accepted_witness :
  ∃ body w',
    DeleteMediaByDateSize_on_POST ex_hs dec_int ex_threshold_request "example.org"
      ex_world
    = (Ok (200, body), w')
    ∧ calls w' = calls ex_world ++ [delete_old_local_media_call 30000000000 0 true].
Proof.
  apply (delete_by_date_size_accepted ex_hs dec_int ex_threshold_request "example.org"
           ex_world 30000000000 0 true (ex_admin_authorised _));
    [vm_compute; reflexivity|vm_compute; reflexivity|vm_compute; reflexivity
    |lia|lia|reflexivity].
Defined.

(** The same request for another server's media. *)
Lemma delete_by_date_size_rejections_witness :
  DeleteMediaByDateSize_on_POST ex_hs dec_int ex_threshold_request "remote.org" ex_world
  = (Raise (SynapseError 400 "Can only delete local media" None), ex_world).
Proof.
  apply (delete_by_date_size_rejections ex_hs dec_int ex_threshold_request "remote.org"
           ex_world 30000000000 0 true (ex_admin_authorised _));
    [vm_compute; reflexivity|vm_compute; reflexivity|vm_compute; reflexivity
    |lia|lia|discriminate].
Defined.

(** A [size_gt] that is no number is reported although [before_ts] is -1. *)
Lemma purge_parse_errors_first_witness :
  DeleteMediaByDateSize_on_POST ex_hs dec_int ex_malformed_size_request "example.org"
    ex_world
  = (Raise (SynapseError 400 "Query parameter must be an integer" (Some INVALID_PARAM)),
     ex_world).
Proof.
  apply (purge_parse_errors_first ex_hs dec_int ex_malformed_size_request ex_world
           (ex_admin_authorised _)) with (before_ts := -1);
    vm_compute; reflexivity.
Defined.

(** The administrator quarantines [A]: one call, in the administrator's name. *)
Lemma governance_single_call_witness :
  calls (QuarantineMediaByID_on_POST ex_hs (ex_admin_request ∅) "example.org" "A"
           ex_world).2
  = calls ex_world
    ++ [quarantine_media_by_id_call "example.org" "A" (Some "@admin:example.org")].
Proof.
  destruct (governance_single_call ex_hs (ex_admin_request ∅) ex_world
              {| user := "@admin:example.org" |} eq_refl eq_refl)
    as (_ & _ & Hbyid & _).
  exact (Hbyid "example.org" "A").
Defined.

(** A listing by a column that does not exist, and one by [media_length]
    backward. *)
Lemma sort_parameters_validated_witness :
  (∃ e, UserMediaRestServlet_on_GET ex_hs dec_int ex_bad_sort_request
          "@alice:example.org" ex_world
        = (Raise e, with_call (get_user_by_id_call "@alice:example.org") ex_world))
  ∧ (∃ resp w' rest,
       UserMediaRestServlet_on_GET ex_hs dec_int ex_sorted_request
         "@alice:example.org" ex_world
       = (Ok resp, w')
       ∧ calls w' = calls ex_world ++
           get_user_by_id_call "@alice:example.org"
           :: get_local_media_by_user_paginate_call 0 100 "@alice:example.org"
                (value MEDIA_LENGTH) "b"
           :: rest).
Proof.
  split.
  - apply (sort_parameters_validated ex_hs dec_int
             (UserMediaRestServlet_on_GET ex_hs dec_int) ex_bad_sort_request
             "@alice:example.org" ex_world 0 100 (or_introl eq_refl)
             (ex_admin_authorised _) ex_alice_local) with (v := "colour");
      [vm_compute; reflexivity|vm_compute; reflexivity|vm_compute; reflexivity
      |lia|lia|vm_compute; reflexivity|by intros []].
  - apply (sort_parameters_validated ex_hs dec_int
             (UserMediaRestServlet_on_GET ex_hs dec_int) ex_sorted_request
             "@alice:example.org" ex_world 0 100 (or_introl eq_refl)
             (ex_admin_authorised _) ex_alice_local);
      [vm_compute; reflexivity|vm_compute; reflexivity|vm_compute; reflexivity
      |lia|lia|vm_compute; reflexivity|].
    right. split; [vm_compute; reflexivity|by right].
Defined.

(** A deletion request without any parameter, for alice. *)
Lemma user_media_defaults_witness :
  ∃ resp w' rest,
    UserMediaRestServlet_on_DELETE ex_hs dec_int (ex_admin_request ∅)
      "@alice:example.org" ex_world
    = (Ok resp, w')
    ∧ calls w' = calls ex_world ++
        get_user_by_id_call "@alice:example.org"
        :: get_local_media_by_user_paginate_call 0 100 "@alice:example.org"
             "created_ts" "b"
        :: rest.
Proof.
  apply (user_media_defaults ex_hs dec_int
           (UserMediaRestServlet_on_DELETE ex_hs dec_int) (ex_admin_request ∅)
           "@alice:example.org" ex_world (or_intror eq_refl)
           (ex_admin_authorised _) ex_alice_local);
    vm_compute; reflexivity.
Defined.

(** GET and DELETE of alice's first page agree on the rows. *)
Lemma delete_matches_listing_witness :
  ∃ page call,
    jget "media" ex_GET_resp.2 = Some (JList (row_json <$> page))
    ∧ calls ex_GET_world
      = calls ex_world ++ [get_user_by_id_call "@alice:example.org"; call]
    ∧ calls ex_DELETE_world
      = calls ex_world ++
          [get_user_by_id_call "@alice:example.org"; call;
           delete_local_media_ids_call (media_id <$> page)].
Proof.
  exact (proj2 (proj2 (delete_matches_listing ex_hs dec_int ex_list_request
                         "@alice:example.org" ex_world))
           ex_GET_resp ex_GET_world ex_DELETE_resp ex_DELETE_world
           ex_GET_run ex_DELETE_run).
Defined.

(** The token of alice's first page of two. *)
Lemma next_token_is_from_plus_limit_witness :
  ∃ start limit,
    parse_integer dec_int ex_list_request "from" 0 = Ok start
    ∧ parse_integer dec_int ex_list_request "limit" 100 = Ok limit
    ∧ 0 ≤ start ∧ 0 ≤ limit
    ∧ JInt 2 = JInt (start + limit)
    ∧ start + limit
      < Z.of_nat (size (media_of_user ex_hs "@alice:example.org" (media ex_world)))
    ∧ (limit = 0 → JInt 2 = JInt start).
Proof.
  exact (next_token_is_from_plus_limit ex_hs dec_int ex_list_request
           "@alice:example.org" ex_world ex_GET_world ex_GET_resp (JInt 2)
           ex_GET_run eq_refl).
Defined.

(** The administrator deletes [A], then asks again. *)
Lemma delete_by_id_twice_witness :
  ∃ resp w1 w2,
    DeleteMediaByID_on_DELETE ex_hs (ex_admin_request ∅) "example.org" "A" ex_world
    = (Ok resp, w1)
    ∧ DeleteMediaByID_on_DELETE ex_hs (ex_admin_request ∅) "example.org" "A" w1
      = (Raise (NotFoundError "Unknown media"), w2)
    ∧ media w2 = media w1.
Proof.
  apply (delete_by_id_twice ex_hs (ex_admin_request ∅) "example.org" "A" ex_world
           (ex_admin_authorised _)).
  - reflexivity.
  - exists ex_A. vm_compute. reflexivity.
  - reflexivity.
Defined.

